(** * vumi SMSC test server: frame reassembly and command dispatch

    A shallow embedding of [vumi/workers/smpp/server.py] (class
    [SmscServer]) together with the properties of its frame buffer
    ([popData], [dataReceived]) and of its command handlers
    ([handleData] and the three [handle_*] methods).

    Conventions of the embedding.
    - A Python 2 byte string that holds wire data is a [list byte]; a
      Python string that holds text (command names, identifiers, message
      bodies) is a [string].
    - Methods of [SmscServer] are computations in a state-and-exception
      monad [M]: they read and update the protocol object [self] and the
      process-wide [World] (the random and clock sources and the bytes
      handed to the transport), and they either return, raise, or - for
      the [while] loop of [dataReceived] - exhaust their fuel.
    - The PDU codec ([unpack_pdu], [get_bin]) and the sources of
      randomness and time are not part of the repository; they are
      variables of the section that holds the handlers.
    - Calls to [log.msg] have no effect of their own on the protocol and
      are left out; what is evaluated for them is kept ([sendPDU] decodes
      the bytes it is about to write).

    The file also embeds the metrics of
    [vumi/blinkenlights/metrics.py] (module [Metrics]): metric objects
    live in a heap, since a metric is shared between the code that
    updates it and the manager that polls it; Python's floats, the clock
    and the message class are taken from a [Runtime]. *)

From Stdlib.Strings Require Import Byte.
From Stdlib Require Import Ascii String NArith ZArith Lia.
From Stdlib Require Import Uint63 PrimFloat.
From stdpp Require Import base strings list gmap.

Local Open Scope N_scope.

(** ** Byte strings *)

Definition bytes := list byte.

(** ** [binascii.b2a_hex] and [int(_, 16)] *)

Module Binascii.

(** The digit that [b2a_hex] emits for a nibble: an index into the
    table of lowercase digits. *)
Definition hexdigit (n : N) : ascii :=
  default "f"%char (Strings.String.get (N.to_nat n) "0123456789abcdef").

(** Two lowercase hexadecimal digits per byte, high nibble first. *)
Fixpoint b2a_hex (data : bytes) : string :=
  match data with
  | [] => EmptyString
  | b :: rest =>
      String (hexdigit (Byte.to_N b / 16))
        (String (hexdigit (Byte.to_N b mod 16)) (b2a_hex rest))
  end.

End Binascii.

Module PyInt.

(** Value of one character as a base-16 digit; [None] for a character
    that is not a hexadecimal digit. *)
Definition digit16 (c : ascii) : option N :=
  let n := N_of_ascii c in
  if (48 <=? n) && (n <=? 57) then Some (n - 48)
  else if (97 <=? n) && (n <=? 102) then Some (n - 87)
  else if (65 <=? n) && (n <=? 70) then Some (n - 55)
  else None.

Fixpoint digits16 (acc : N) (s : string) : option N :=
  match s with
  | EmptyString => Some acc
  | String c rest =>
      match digit16 c with
      | Some d => digits16 (16 * acc + d) rest
      | None => None
      end
  end.

(** [int(s, 16)] on a string of digits; [None] stands for the
    [ValueError] raised on an empty string or on a character that is
    not a digit. *)
Definition int16 (s : string) : option N :=
  match s with
  | EmptyString => None
  | _ => digits16 0 s
  end.

End PyInt.

(** The unsigned big-endian value of a byte string, written
    arithmetically: the reading of the length field that the wire format
    prescribes. *)
Definition be_uint (data : bytes) : N :=
  fold_left (fun acc b => 256 * acc + Byte.to_N b) data 0.

(** ** Exceptions, the world, and the monad of methods *)

Inductive exn :=
| KeyError (key : string)
| ValueError
| CodecError (detail : string).

(** The attributes of a protocol object.  [__init__] creates exactly one,
    [datastream]; the [transport] attribute is a reference to the socket,
    whose traffic is recorded in the [World]. *)
Record SmscServer := { datastream : bytes }.

(** [SmscServer.__init__]. *)
Definition SmscServer_init : SmscServer := {| datastream := [] |}.

(** What lies outside the protocol object: how many times the process has
    drawn from [uuid.uuid4] and from [datetime.now], and the byte strings
    passed to [transport.write], oldest first. *)
Record World := {
  uuid4_calls : nat;
  now_calls : nat;
  written : list bytes
}.

Inductive outcome (A : Type) :=
| Returns (a : A) (w : World) (self : SmscServer)
| Raises (e : exn) (w : World) (self : SmscServer)
| OutOfFuel.
Arguments Returns {A} a w self.
Arguments Raises {A} e w self.
Arguments OutOfFuel {A}.

Definition M (A : Type) := World -> SmscServer -> outcome A.

Definition ret {A} (a : A) : M A := fun w self => Returns a w self.

Definition bind {A B} (m : M A) (k : A -> M B) : M B :=
  fun w self =>
    match m w self with
    | Returns a w' self' => k a w' self'
    | Raises e w' self' => Raises e w' self'
    | OutOfFuel => OutOfFuel
    end.

Definition raise {A} (e : exn) : M A := fun w self => Raises e w self.

#[export] Instance M_ret : MRet M := @ret.
#[export] Instance M_bind : MBind M := fun A B k m => bind m k.

Definition get_datastream : M bytes :=
  fun w self => Returns (datastream self) w self.

Definition set_datastream (d : bytes) : M unit :=
  fun w _ => Returns tt w {| datastream := d |}.

(** ** The frame buffer: [popData] *)

(** [SmscServer.popData].  The slices [datastream[0:4]],
    [datastream[0:command_length]] and [datastream[command_length:]] are
    [take] and [drop]; the comparison with the length is made on [N], as
    Python compares integers. *)
Definition popData : M (option bytes) :=
  ds ← get_datastream;
  if 16 <=? N.of_nat (length ds) then
    match PyInt.int16 (Binascii.b2a_hex (take 4 ds)) with
    | None => raise ValueError
    | Some command_length =>
        if command_length <=? N.of_nat (length ds) then
          set_datastream (drop (N.to_nat command_length) ds);;
          ret (Some (take (N.to_nat command_length) ds))
        else ret None
    end
  else ret None.

(** The extraction algorithm as the specification words it, on a bare
    buffer: the frame, if any, and the bytes that stay buffered. *)
Definition extractFrame (buf : bytes) : option bytes * bytes :=
  if N.of_nat (length buf) <? 16 then (None, buf)
  else
    let n := be_uint (take 4 buf) in
    if N.of_nat (length buf) <? n then (None, buf)
    else (Some (take (N.to_nat n) buf), drop (N.to_nat n) buf).


(** ** Decoded and outbound PDUs *)

(** The dictionary that [unpack_pdu] returns, as far as the handlers read
    it: [pdu['header']] with its three fields, and
    [pdu['body']['mandatory_parameters']], a dictionary of named
    parameters.  A key that can be missing is an [option]. *)
Record pdu_header := {
  command_id : string;
  command_status : string;
  sequence_number : Z
}.

Record pdu_body := { mandatory_parameters : option (gmap string string) }.

Record pdu := { header : pdu_header; body : option pdu_body }.

(** The PDU objects of [smpp.pdu_builder] that the server constructs,
    with the arguments it passes. *)
Inductive PDU :=
| BindTransceiverResp (sequence_number : Z) (system_id : string)
| EnquireLinkResp (sequence_number : Z)
| SubmitSMResp (sequence_number : Z) (message_id : string)
| DeliverSM (sequence_number : Z) (short_message : string).

(** [d[key]] on a dictionary entry that may be absent. *)
Definition getitem {A} (key : string) (entry : option A) : M A :=
  match entry with
  | Some a => mret a
  | None => raise (KeyError key)
  end.

Definition out_of_fuel {A} : M A := fun _ _ => OutOfFuel.

(** ** The session of the specification *)

(** The specification's per-connection session, in its words: a state
    that is [Unbound] or [Bound], and an optional bound identity.  The
    source has no such object; the type serves to compare the two. *)
Inductive SessionState := Unbound | Bound.

Record Session := {
  state : SessionState;
  boundIdentity : option string
}.

(** ** Substrings *)

(** [needle in haystack] for Python strings. *)
Definition contains (haystack needle : string) : Prop :=
  exists before after, haystack = before +:+ needle +:+ after.

(** ** Draining the buffer *)

(** [popData] repeated until it returns [None], collecting the frames:
    the loop of [dataReceived] without its handler. *)
Fixpoint drain (fuel : nat) : M (list bytes) :=
  data ← popData;
  match data with
  | None => mret []
  | Some frame =>
      match fuel with
      | O => out_of_fuel
      | S fuel' => frames ← drain fuel'; mret (frame :: frames)
      end
  end.

(** Append each chunk to the buffer and drain after each. *)
Fixpoint feed (fuel : nat) (chunks : list bytes) : M (list bytes) :=
  match chunks with
  | [] => mret []
  | chunk :: rest =>
      ds ← get_datastream;
      set_datastream (ds ++ chunk);;
      frames ← drain fuel;
      more ← feed fuel rest;
      mret (frames ++ more)
  end.

(** The same loop as a relation: [drains buf frames rest] when repeated
    extraction from [buf] yields [frames], in order, and then finds no
    frame in [rest]. *)
Inductive drains : bytes -> list bytes -> bytes -> Prop :=
| drains_done (buf : bytes) :
    extractFrame buf = (None, buf) ->
    drains buf [] buf
| drains_step (buf frame rest : bytes) (frames : list bytes) (final : bytes) :
    extractFrame buf = (Some frame, rest) ->
    drains rest frames final ->
    drains buf (frame :: frames) final.


(** A computation that neither reads nor changes the protocol object. *)
Definition oblivious {A} (m : M A) : Prop :=
  forall w,
    (exists a w', forall self, m w self = Returns a w' self)
    \/ (exists e w', forall self, m w self = Raises e w' self).

(** A valid frame: at least a full header, and a length field that
    states the length of the frame. *)
Definition valid_frame (frame : bytes) : Prop :=
  16 <= N.of_nat (length frame)
  /\ be_uint (take 4 frame) = N.of_nat (length frame).

(** A strictly partial frame: a valid frame with a non-empty end
    missing. *)
Definition strictly_partial (part : bytes) : Prop :=
  exists frame missing,
    valid_frame frame /\ frame = part ++ missing /\ missing <> [].

(** ** A small codec and small sources, for running the server *)

Module Demo.

Definition byte_of_N (n : N) : byte :=
  default x00 (Byte.of_N (n mod 256)).

(** Four bytes, most significant first. *)
Definition be4 (n : N) : bytes :=
  [byte_of_N (n / 16777216); byte_of_N (n / 65536);
   byte_of_N (n / 256); byte_of_N n].

Definition command_name (id : N) : string :=
  match id with
  | 9 => "bind_transceiver"
  | 4 => "submit_sm"
  | 21 => "enquire_link"
  | 5 => "deliver_sm"
  | _ => "unknown"
  end.

Definition status_name (code : N) : string :=
  match code with
  | 0 => "ESME_ROK"
  | _ => "ESME_RUNKNOWNERR"
  end.

(** Decodes the 16-byte header; the body is not decoded. *)
Definition unpack_pdu (data : bytes) : exn + pdu :=
  if N.of_nat (length data) <? 16 then inl (CodecError "short header")
  else
    inr {| header :=
             {| command_id := command_name (be_uint (take 4 (drop 4 data)));
                command_status := status_name (be_uint (take 4 (drop 8 data)));
                sequence_number := Z.of_N (be_uint (take 4 (drop 12 data))) |};
           body := None |}.

Definition response_id (p : PDU) : N :=
  match p with
  | BindTransceiverResp _ _ => 2147483657
  | EnquireLinkResp _ => 2147483669
  | SubmitSMResp _ _ => 2147483652
  | DeliverSM _ _ => 5
  end.

Definition response_seq (p : PDU) : Z :=
  match p with
  | BindTransceiverResp s _ | EnquireLinkResp s
  | SubmitSMResp s _ | DeliverSM s _ => s
  end.

(** Encodes the header only. *)
Definition get_bin (p : PDU) : bytes :=
  be4 16 ++ be4 (response_id p) ++ be4 0 ++ be4 (Z.to_N (response_seq p)).

(** The [k]-th identifier is [k] strokes long. *)
Fixpoint uuid4_str (k : nat) : string :=
  match k with
  | O => EmptyString
  | S k' => String "|" (uuid4_str k')
  end.

Definition now_strftime (k : nat) : string := "110818120000".

Definition world0 : World :=
  {| uuid4_calls := 0; now_calls := 0; written := [] |}.

(** An [enquire_link] with sequence number 3, and a [submit_sm] with
    sequence number 42 cut after twenty of its twenty-four bytes. *)
Definition enquire_link_frame : bytes := be4 16 ++ be4 21 ++ be4 0 ++ be4 3.
Definition submit_sm_part : bytes :=
  be4 24 ++ be4 4 ++ be4 0 ++ be4 42 ++ [x00; x00; x00; x00].

Definition header_of (id status : string) (seq : Z) : pdu_header :=
  {| command_id := id; command_status := status; sequence_number := seq |}.

Definition bind_pdu (seq : Z) (identity : string) : pdu :=
  {| header := header_of "bind_transceiver" "ESME_ROK" seq;
     body := Some {| mandatory_parameters :=
                       Some {[ "system_id" := identity ]} |} |}.

Definition submit_pdu (seq : Z) : pdu :=
  {| header := header_of "submit_sm" "ESME_ROK" seq; body := None |}.

Definition enquire_pdu (seq : Z) : pdu :=
  {| header := header_of "enquire_link" "ESME_ROK" seq; body := None |}.


End Demo.

(** ** The metrics of [vumi/blinkenlights/metrics.py] *)

Module Metrics.

(** A value that a metric reports: a Python [int] or a Python [float]. *)
Inductive value (F : Type) :=
| IntValue (n : Z)
| FloatValue (x : F).
Arguments IntValue {F} n.
Arguments FloatValue {F} x.

(** What the module takes from outside the repository's source: Python's
    floats with the operations the metrics use, the clock ([time_time k]
    is the value of the [k]-th evaluation of [time.time()]), and the
    class [MetricMessage] with its constructor and its [append]. *)
Class Runtime := {
  float : Type;
  float_zero : float;
  float_add : float -> float -> float;
  float_sub : float -> float -> float;
  float_div : float -> float -> float;
  float_of_int : Z -> float;
  time_time : nat -> float;
  MetricMessage : Type;
  MetricMessage_new : MetricMessage;
  MetricMessage_append :
    MetricMessage -> option string * float * value float -> MetricMessage
}.

Inductive error :=
| MetricRegistrationError (message : string)
| TimerAlreadyStartedError (message : string)
| NotImplementedError (message : string)
| TypeError
| AttributeError (attribute : string)
| DanglingReference.

Section Objects.

Context `{Runtime}.

(** The attributes that each class adds to those of [Metric]. *)
Inductive attributes :=
| OfMetric
| OfSimpleValue (_value : value float)
| OfCount (_value : Z)
| OfSum (_value : float) (_count : Z) (do_averaging : bool)
| OfTimer (_value : float) (_count : Z) (do_averaging : bool)
          (_start_time : option float).

Record Metric := {
  name : option string;
  _suffix : string;
  attrs : attributes
}.

(** A [MetricManager], without the looping call that [start] creates. *)
Record MetricManager := {
  prefix : string;
  _metrics : list nat;
  _publish_interval : Z
}.

(** Objects are shared and mutated in place: a metric is held by the
    code that updates it and by the manager that polls it.  The heap maps
    references to objects; it also counts the readings of the clock and
    keeps the messages handed to [publish_message], oldest first. *)
Record Heap := {
  metrics : gmap nat Metric;
  managers : gmap nat MetricManager;
  time_calls : nat;
  published : list MetricMessage
}.

Definition empty_heap : Heap :=
  {| metrics := ∅; managers := ∅; time_calls := 0; published := [] |}.

Inductive result (A : Type) :=
| Ok (a : A) (h : Heap)
| Err (e : error) (h : Heap).
Arguments Ok {A} a h.
Arguments Err {A} e h.

Definition Py (A : Type) := Heap -> result A.

Definition py_ret {A} (a : A) : Py A := fun h => Ok a h.

Definition py_bind {A B} (m : Py A) (k : A -> Py B) : Py B :=
  fun h =>
    match m h with
    | Ok a h' => k a h'
    | Err e h' => Err e h'
    end.

Definition py_raise {A} (e : error) : Py A := fun h => Err e h.

#[export] Instance Py_ret : MRet Py := @py_ret.
#[export] Instance Py_bind : MBind Py := fun A B k m => py_bind m k.

Definition get_metric (self : nat) : Py Metric :=
  fun h =>
    match metrics h !! self with
    | Some m => Ok m h
    | None => Err DanglingReference h
    end.

Definition put_metric (self : nat) (m : Metric) : Py unit :=
  fun h =>
    Ok tt {| metrics := <[self := m]> (metrics h);
             managers := managers h;
             time_calls := time_calls h;
             published := published h |}.

Definition set_attrs (self : nat) (m : Metric) (a : attributes) : Py unit :=
  put_metric self {| name := name m; _suffix := _suffix m; attrs := a |}.

Definition get_manager (self : nat) : Py MetricManager :=
  fun h =>
    match managers h !! self with
    | Some g => Ok g h
    | None => Err DanglingReference h
    end.

Definition put_manager (self : nat) (g : MetricManager) : Py unit :=
  fun h =>
    Ok tt {| metrics := metrics h;
             managers := <[self := g]> (managers h);
             time_calls := time_calls h;
             published := published h |}.

(** [time.time()]. *)
Definition time : Py float :=
  fun h =>
    Ok (time_time (time_calls h))
       {| metrics := metrics h;
          managers := managers h;
          time_calls := S (time_calls h);
          published := published h |}.

(** [Publisher.publish_message], as far as this module sees it. *)
Definition publish_message (msg : MetricMessage) : Py unit :=
  fun h =>
    Ok tt {| metrics := metrics h;
             managers := managers h;
             time_calls := time_calls h;
             published := published h ++ [msg] |}.

(** A new object, at a reference that no metric has. *)
Definition new_metric (m : Metric) : Py nat :=
  fun h =>
    let self := fresh (dom (metrics h)) in
    Ok self {| metrics := <[self := m]> (metrics h);
               managers := managers h;
               time_calls := time_calls h;
               published := published h |}.

(** [Metric.__init__] and the [__init__] of its subclasses. *)
Definition Metric_init (suffix : string) (a : attributes) : Metric :=
  {| name := None; _suffix := suffix; attrs := a |}.

Definition new_Metric (suffix : string) : Py nat :=
  new_metric (Metric_init suffix OfMetric).

Definition new_SimpleValue (suffix : string) : Py nat :=
  new_metric (Metric_init suffix (OfSimpleValue (FloatValue float_zero))).

Definition new_Count (suffix : string) : Py nat :=
  new_metric (Metric_init suffix (OfCount 0)).

Definition new_Sum (suffix : string) (do_averaging : bool) : Py nat :=
  new_metric (Metric_init suffix (OfSum float_zero 0 do_averaging)).

Definition new_Timer (suffix : string) (do_averaging : bool) : Py nat :=
  new_metric (Metric_init suffix (OfTimer float_zero 0 do_averaging None)).

(** [Metric.manage]. *)
Definition manage (self : nat) (prefix : string) : Py unit :=
  m ← get_metric self;
  match name m with
  | Some _ =>
      py_raise
        (MetricRegistrationError
           ("Metric " +:+ prefix +:+ _suffix m
              +:+ " already registered with a MetricManager."))
  | None =>
      put_metric self
        {| name := Some (prefix +:+ _suffix m);
           _suffix := _suffix m;
           attrs := attrs m |}
  end.

(** The function that [Sum.__init__] stores in [_func]. *)
Definition _func (do_averaging : bool) (value : float) (count : Z) : float :=
  if do_averaging then
    if decide (count = 0%Z) then float_zero
    else float_div value (float_of_int count)
  else value.

(** [poll], as each class defines or inherits it. *)
Definition poll (self : nat) : Py (value float) :=
  m ← get_metric self;
  match attrs m with
  | OfMetric =>
      py_raise (NotImplementedError "Metric subclasses should implement .poll()")
  | OfSimpleValue v => mret v
  | OfCount n =>
      set_attrs self m (OfCount 0);;
      mret (IntValue n)
  | OfSum v c avg =>
      set_attrs self m (OfSum float_zero 0 avg);;
      mret (FloatValue (_func avg v c))
  | OfTimer v c avg start =>
      set_attrs self m (OfTimer float_zero 0 avg start);;
      mret (FloatValue (_func avg v c))
  end.

(** [SimpleValue.set]. *)
Definition set (self : nat) (v : value float) : Py unit :=
  m ← get_metric self;
  match attrs m with
  | OfSimpleValue _ => set_attrs self m (OfSimpleValue v)
  | _ => py_raise (AttributeError "set")
  end.

(** [Count.inc]. *)
Definition inc (self : nat) : Py unit :=
  m ← get_metric self;
  match attrs m with
  | OfCount n => set_attrs self m (OfCount (n + 1))
  | _ => py_raise (AttributeError "inc")
  end.

(** [float + amount]: an [int] amount is converted first. *)
Definition plus (v : float) (amount : value float) : float :=
  match amount with
  | FloatValue x => float_add v x
  | IntValue n => float_add v (float_of_int n)
  end.

(** [Sum.add], which [Timer] inherits. *)
Definition add (self : nat) (amount : value float) : Py unit :=
  m ← get_metric self;
  match attrs m with
  | OfSum v c avg => set_attrs self m (OfSum (plus v amount) (c + 1) avg)
  | OfTimer v c avg start =>
      set_attrs self m (OfTimer (plus v amount) (c + 1) avg start)
  | _ => py_raise (AttributeError "add")
  end.

(** ["%s" % (self.name,)]. *)
Definition str_of_name (n : option string) : string := default "None" n.

(** [Timer.start]. *)
Definition start (self : nat) : Py unit :=
  m ← get_metric self;
  match attrs m with
  | OfTimer v c avg (Some _) =>
      py_raise
        (TimerAlreadyStartedError
           ("Attempt to start timer " +:+ str_of_name (name m)
              +:+ " that was already started"))
  | OfTimer v c avg None =>
      now ← time;
      set_attrs self m (OfTimer v c avg (Some now))
  | _ => py_raise (AttributeError "start")
  end.

(** [Timer.stop].  The clock is read before [_start_time] is used; with
    [_start_time] equal to [None] the subtraction raises [TypeError]. *)
Definition stop (self : nat) : Py unit :=
  m ← get_metric self;
  match attrs m with
  | OfTimer v c avg start_time =>
      now ← time;
      match start_time with
      | None => py_raise TypeError
      | Some started =>
          let duration := float_sub now started in
          set_attrs self m (OfTimer v c avg None);;
          add self (FloatValue duration)
      end
  | _ => py_raise (AttributeError "stop")
  end.

(** [Timer.__enter__] and [Timer.__exit__]. *)
Definition __enter__ (self : nat) : Py nat :=
  start self;;
  mret self.

Definition __exit__ (self : nat) : Py bool :=
  stop self;;
  mret false.

(** [with timer: body].  [__exit__] runs whether the body returns or
    raises; as it returns [False], an exception of the body is raised
    again after it. *)
Definition run_then_exit {A} (self : nat) (body : Py A) : Py A :=
  fun h =>
    match body h with
    | Ok a h' => (__exit__ self;; mret a) h'
    | Err e h' => (__exit__ self;; py_raise e) h'
    end.

Definition with_ {A} (self : nat) (body : Py A) : Py A :=
  __enter__ self;;
  run_then_exit self body.

(** [MetricManager.__init__]. *)
Definition new_MetricManager (prefix : string) (publish_interval : Z) : Py nat :=
  fun h =>
    let self := fresh (dom (managers h)) in
    Ok self
       {| metrics := metrics h;
          managers :=
            <[self := {| prefix := prefix; _metrics := [];
                         _publish_interval := publish_interval |}]> (managers h);
          time_calls := time_calls h;
          published := published h |}.

(** [MetricManager.register]. *)
Definition register (self metric : nat) : Py nat :=
  g ← get_manager self;
  manage metric (prefix g);;
  g ← get_manager self;
  put_manager self
    {| prefix := prefix g; _metrics := _metrics g ++ [metric];
       _publish_interval := _publish_interval g |};;
  mret metric.

(** The [for] loop of [_publish_metrics]. *)
Fixpoint publish_loop (now : float) (msg : MetricMessage) (todo : list nat)
  : Py MetricMessage :=
  match todo with
  | [] => mret msg
  | metric :: rest =>
      m ← get_metric metric;
      v ← poll metric;
      publish_loop now (MetricMessage_append msg (name m, now, v)) rest
  end.

(** [MetricManager._publish_metrics]. *)
Definition _publish_metrics (self : nat) : Py unit :=
  let msg := MetricMessage_new in
  now ← time;
  g ← get_manager self;
  msg ← publish_loop now msg (_metrics g);
  publish_message msg.

(** [op] repeated [n] times. *)
Fixpoint times (n : nat) (op : Py unit) : Py unit :=
  match n with
  | O => mret tt
  | S n' => op;; times n' op
  end.

(** [add] for each amount of a list, in order. *)
Fixpoint add_all (self : nat) (amounts : list (value float)) : Py unit :=
  match amounts with
  | [] => mret tt
  | amount :: rest => add self amount;; add_all self rest
  end.

(** What [poll] returns for an object, and the object it leaves. *)
Definition polled (m : Metric) : option (value float * Metric) :=
  match attrs m with
  | OfMetric => None
  | OfSimpleValue v => Some (v, m)
  | OfCount n =>
      Some (IntValue n,
            {| name := name m; _suffix := _suffix m; attrs := OfCount 0 |})
  | OfSum v c avg =>
      Some (FloatValue (_func avg v c),
            {| name := name m; _suffix := _suffix m;
               attrs := OfSum float_zero 0 avg |})
  | OfTimer v c avg start =>
      Some (FloatValue (_func avg v c),
            {| name := name m; _suffix := _suffix m;
               attrs := OfTimer float_zero 0 avg start |})
  end.

(** The heap with one metric replaced, with one manager replaced, and
    after one reading of the clock. *)
Definition with_metric (h : Heap) (self : nat) (m : Metric) : Heap :=
  {| metrics := <[self := m]> (metrics h);
     managers := managers h;
     time_calls := time_calls h;
     published := published h |}.

Definition with_manager (h : Heap) (self : nat) (g : MetricManager) : Heap :=
  {| metrics := metrics h;
     managers := <[self := g]> (managers h);
     time_calls := time_calls h;
     published := published h |}.

Definition tick (h : Heap) : Heap :=
  {| metrics := metrics h;
     managers := managers h;
     time_calls := S (time_calls h);
     published := published h |}.

Definition with_attrs (m : Metric) (a : attributes) : Metric :=
  {| name := name m; _suffix := _suffix m; attrs := a |}.

Definition with_name (m : Metric) (n : string) : Metric :=
  {| name := Some n; _suffix := _suffix m; attrs := attrs m |}.

Definition listing (g : MetricManager) (metric : nat) : MetricManager :=
  {| prefix := prefix g; _metrics := _metrics g ++ [metric];
     _publish_interval := _publish_interval g |}.

(** The heap after each metric of a list has been replaced, and the
    datapoints that one round of polling appends to the message. *)
Definition reset_all (h : Heap) (polls : list (nat * Metric)) : Heap :=
  foldl (fun acc '(self, m) => with_metric acc self m) h polls.

Definition datapoints (now : float) (ms : list Metric)
    (rs : list (value float * Metric))
  : list (option string * float * value float) :=
  zip_with (fun m r => (name m, now, r.1)) ms rs.

(** "A metric can be registered with only one metric set": every manager
    lists a metric at most once, no metric is listed by two managers, and
    every listed metric exists and has its name. *)
Definition listed (h : Heap) (metric self : nat) : Prop :=
  exists g, managers h !! self = Some g /\ metric ∈ _metrics g.

Record one_manager_each (h : Heap) : Prop := {
  listed_once :
    forall self g, managers h !! self = Some g -> NoDup (_metrics g);
  listed_by_one :
    forall metric self1 self2,
      listed h metric self1 -> listed h metric self2 -> self1 = self2;
  listed_named :
    forall metric self g,
      managers h !! self = Some g -> metric ∈ _metrics g ->
      exists m, metrics h !! metric = Some m
                /\ name m = Some (prefix g +:+ _suffix m)
}.

(** The calls that the module offers, for statements about every use of
    it.  [NewMetric] stands for the constructors of the five classes. *)
Inductive call :=
| NewMetric (suffix : string) (a : attributes)
| NewMetricManager (prefix : string) (publish_interval : Z)
| Register (self metric : nat)
| PublishMetrics (self : nat)
| Poll (self : nat)
| SetValue (self : nat) (v : value float)
| Inc (self : nat)
| Add (self : nat) (amount : value float)
| Start (self : nat)
| Stop (self : nat).

Definition heap_of {A} (r : result A) : Heap :=
  match r with
  | Ok _ h => h
  | Err _ h => h
  end.

(** The heap that a call leaves, whether it returns or raises. *)
Definition perform (c : call) (h : Heap) : Heap :=
  match c with
  | NewMetric suffix a => heap_of (new_metric (Metric_init suffix a) h)
  | NewMetricManager prefix publish_interval =>
      heap_of (new_MetricManager prefix publish_interval h)
  | Register self metric => heap_of (register self metric h)
  | PublishMetrics self => heap_of (_publish_metrics self h)
  | Poll self => heap_of (poll self h)
  | SetValue self v => heap_of (set self v h)
  | Inc self => heap_of (inc self h)
  | Add self amount => heap_of (add self amount h)
  | Start self => heap_of (start self h)
  | Stop self => heap_of (stop self h)
  end.

(** A sequence of calls, each made whether or not the one before it
    raised. *)
Definition perform_all (cs : list call) (h : Heap) : Heap :=
  foldl (fun acc c => perform c acc) h cs.

(** The name and the suffix of every metric of a heap. *)
Definition names_of (h : Heap) : gmap nat (option string * string) :=
  (fun m => (name m, _suffix m)) <$> metrics h.

Definition same_names (h h' : Heap) : Prop :=
  managers h' = managers h /\ names_of h' = names_of h.

End Objects.

Arguments Ok {_ A} a h.
Arguments Err {_ A} e h.

(** A runtime for running the metrics: IEEE 754 binary64 floats, a clock
    that advances by a quarter of a second per reading, and messages
    that are the lists of their datapoints. *)
Definition demo_float_of_int (n : Z) : PrimFloat.float :=
  match n with
  | Z0 => PrimFloat.zero
  | Zpos _ => PrimFloat.of_uint63 (Uint63.of_Z n)
  | Zneg _ => PrimFloat.opp (PrimFloat.of_uint63 (Uint63.of_Z (- n)))
  end.

Definition demo_runtime : Runtime :=
  {| float := PrimFloat.float;
     float_zero := PrimFloat.zero;
     float_add := PrimFloat.add;
     float_sub := PrimFloat.sub;
     float_div := PrimFloat.div;
     float_of_int := demo_float_of_int;
     time_time := fun k =>
       PrimFloat.div (PrimFloat.of_uint63 (Uint63.of_Z (Z.of_nat k)))
         (PrimFloat.of_uint63 4%uint63);
     MetricMessage := list (option string * PrimFloat.float * value PrimFloat.float);
     MetricMessage_new := [];
     MetricMessage_append := fun msg datapoint => msg ++ [datapoint] |}.

(** A heap built by calls: manager 0 with a counter, an averaging sum and
    a timer (metrics 0, 1, 2), manager 1 with a counter and a metric of
    the base class (metrics 4 and 3), and a simple value that is not
    registered (metric 5). *)
Definition demo_calls : list (@call demo_runtime) :=
  [@NewMetricManager demo_runtime "vumi.worker0." 5;
   @NewMetric demo_runtime "my.count" (@OfCount demo_runtime 0);
   @NewMetric demo_runtime "my.sum" (@OfSum demo_runtime PrimFloat.zero 0 true);
   @NewMetric demo_runtime "hard.work"
     (@OfTimer demo_runtime PrimFloat.zero 0 false None);
   @NewMetric demo_runtime "base" (@OfMetric demo_runtime);
   @NewMetric demo_runtime "other.count" (@OfCount demo_runtime 0);
   @NewMetric demo_runtime "my.value"
     (@OfSimpleValue demo_runtime (@FloatValue PrimFloat.float PrimFloat.zero));
   @NewMetricManager demo_runtime "vumi.worker1." 5;
   @Register demo_runtime 0 0;
   @Register demo_runtime 0 1;
   @Register demo_runtime 0 2;
   @Register demo_runtime 1 4;
   @Register demo_runtime 1 3;
   @Inc demo_runtime 0;
   @Inc demo_runtime 0;
   @Add demo_runtime 1 (@FloatValue PrimFloat.float 1.5%float);
   @Add demo_runtime 1 (@IntValue PrimFloat.float 2);
   @Inc demo_runtime 4].

(** The heap that these calls build. *)
Definition count0 : @Metric demo_runtime :=
  {| name := Some "vumi.worker0.my.count"; _suffix := "my.count";
     attrs := @OfCount demo_runtime 2 |}.

Definition sum1 : @Metric demo_runtime :=
  {| name := Some "vumi.worker0.my.sum"; _suffix := "my.sum";
     attrs := @OfSum demo_runtime 3.5%float 2 true |}.

Definition timer2 : @Metric demo_runtime :=
  {| name := Some "vumi.worker0.hard.work"; _suffix := "hard.work";
     attrs := @OfTimer demo_runtime PrimFloat.zero 0 false None |}.

Definition base3 : @Metric demo_runtime :=
  {| name := Some "vumi.worker1.base"; _suffix := "base";
     attrs := @OfMetric demo_runtime |}.

Definition count4 : @Metric demo_runtime :=
  {| name := Some "vumi.worker1.other.count"; _suffix := "other.count";
     attrs := @OfCount demo_runtime 1 |}.

Definition value5 : @Metric demo_runtime :=
  {| name := None; _suffix := "my.value";
     attrs := @OfSimpleValue demo_runtime (@FloatValue PrimFloat.float PrimFloat.zero) |}.

Definition manager0 : MetricManager :=
  {| prefix := "vumi.worker0."; _metrics := [0; 1; 2]%nat;
     _publish_interval := 5 |}.

Definition manager1 : MetricManager :=
  {| prefix := "vumi.worker1."; _metrics := [4; 3]%nat;
     _publish_interval := 5 |}.

Definition demo_heap : @Heap demo_runtime :=
  {| metrics :=
       <[0%nat := count0]> (<[1%nat := sum1]> (<[2%nat := timer2]>
         (<[3%nat := base3]> (<[4%nat := count4]> (<[5%nat := value5]> ∅)))));
     managers := <[0%nat := manager0]> (<[1%nat := manager1]> ∅);
     time_calls := 0;
     published := [] |}.

End Metrics.

(** ** The protocol object *)

Section Server.

(** The codec: [unpack_pdu] decodes a frame or raises; [get_bin]
    encodes a PDU object. *)
Variable unpack_pdu : bytes -> exn + pdu.
Variable get_bin : PDU -> bytes.

(** The value of the [k]-th evaluation, in the life of the process, of
    [str(uuid.uuid4())] and of
    [datetime.now().strftime("%y%m%d%H%M%S")]. *)
Variable uuid4_str : nat -> string.
Variable now_strftime : nat -> string.

Definition uuid4 : M string :=
  fun w self =>
    Returns (uuid4_str (uuid4_calls w))
      {| uuid4_calls := S (uuid4_calls w);
         now_calls := now_calls w;
         written := written w |} self.

Definition now : M string :=
  fun w self =>
    Returns (now_strftime (now_calls w))
      {| uuid4_calls := uuid4_calls w;
         now_calls := S (now_calls w);
         written := written w |} self.

(** [self.transport.write(data)]. *)
Definition transport_write (data : bytes) : M unit :=
  fun w self =>
    Returns tt
      {| uuid4_calls := uuid4_calls w;
         now_calls := now_calls w;
         written := written w ++ [data] |} self.

(** [SmscServer.sendPDU].  The bytes are decoded again for the log line
    before they are written: an exception of [unpack_pdu] escapes and
    nothing is written. *)
Definition sendPDU (p : PDU) : M unit :=
  let data := get_bin p in
  match unpack_pdu data with
  | inl e => raise e
  | inr _ => transport_write data
  end.

(** The codec can decode what it encoded for the PDU [p]. *)
Definition loggable (p : PDU) : Prop :=
  exists decoded, unpack_pdu (get_bin p) = inr decoded.

(** [SmscServer.handle_bind_transceiver]. *)
Definition handle_bind_transceiver (p : pdu) : M unit :=
  if String.eqb (command_status (header p)) "ESME_ROK" then
    let sequence_number := sequence_number (header p) in
    b ← getitem "body" (body p);
    params ← getitem "mandatory_parameters" (mandatory_parameters b);
    system_id ← getitem "system_id" (params !! "system_id");
    let pdu_resp := BindTransceiverResp sequence_number system_id in
    sendPDU pdu_resp
  else mret tt.

(** [SmscServer.handle_enquire_link]. *)
Definition handle_enquire_link (p : pdu) : M unit :=
  if String.eqb (command_status (header p)) "ESME_ROK" then
    let sequence_number := sequence_number (header p) in
    let pdu_resp := EnquireLinkResp sequence_number in
    sendPDU pdu_resp
  else mret tt.

(** The text of a delivery receipt, the format string of
    [delivery_report] filled in. *)
Definition receipt_text (message_id submit_date done_date : string) : string :=
  "id:" +:+ message_id +:+ " sub:001 dlvrd:001 submit date:" +:+ submit_date
    +:+ " done date:" +:+ done_date +:+ " stat:DELIVRD err:000 text:".

(** [SmscServer.delivery_report]. *)
Definition delivery_report (message_id : string) : M unit :=
  let sequence_number := 1%Z in
  submit_date ← now;
  done_date ← now;
  let short_message := receipt_text message_id submit_date done_date in
  sendPDU (DeliverSM sequence_number short_message).

(** [SmscServer.handle_submit_sm]. *)
Definition handle_submit_sm (p : pdu) : M unit :=
  if String.eqb (command_status (header p)) "ESME_ROK" then
    let sequence_number := sequence_number (header p) in
    message_id ← uuid4;
    let pdu_resp := SubmitSMResp sequence_number message_id in
    sendPDU pdu_resp;;
    delivery_report message_id
  else mret tt.

(** The body of [SmscServer.handleData] after the frame is decoded:
    three successive [if]s on the command identifier. *)
Definition dispatch (p : pdu) : M unit :=
  (if String.eqb (command_id (header p)) "bind_transceiver"
   then handle_bind_transceiver p else mret tt);;
  (if String.eqb (command_id (header p)) "submit_sm"
   then handle_submit_sm p else mret tt);;
  (if String.eqb (command_id (header p)) "enquire_link"
   then handle_enquire_link p else mret tt).

(** [SmscServer.handleData]. *)
Definition handleData (data : bytes) : M unit :=
  match unpack_pdu data with
  | inl e => raise e
  | inr p => dispatch p
  end.

(** The [while data != None] loop of [dataReceived]; [data] is the
    result of the latest [popData].  An empty frame is not [None]. *)
Fixpoint dataReceived_while (fuel : nat) (data : option bytes) : M unit :=
  match data with
  | None => mret tt
  | Some frame =>
      match fuel with
      | O => out_of_fuel
      | S fuel' =>
          handleData frame;;
          data' ← popData;
          dataReceived_while fuel' data'
      end
  end.

(** The first [popData] of [dataReceived] and the loop it enters. *)
Definition popData_then_loop (fuel : nat) : M unit :=
  data ← popData;
  dataReceived_while fuel data.

(** [SmscServer.dataReceived]. *)
Definition dataReceived (fuel : nat) (data : bytes) : M unit :=
  ds ← get_datastream;
  set_datastream (ds ++ data);;
  popData_then_loop fuel.

(** The reactor delivers the chunks of the stream one
    [dataReceived] call at a time, and stops at the first call that
    does not return. *)
Fixpoint deliver (fuel : nat) (chunks : list bytes) : M unit :=
  match chunks with
  | [] => mret tt
  | chunk :: rest => dataReceived fuel chunk;; deliver fuel rest
  end.

(** [handleData] on each frame of a list, in order. *)
Fixpoint handleAll (frames : list bytes) : M unit :=
  match frames with
  | [] => mret tt
  | frame :: rest => handleData frame;; handleAll rest
  end.

(** [dispatch] on each command of a list, in order. *)
Fixpoint dispatchAll (commands : list pdu) : M unit :=
  match commands with
  | [] => mret tt
  | p :: rest => dispatch p;; dispatchAll rest
  end.

(** *** What a run is expected to leave behind *)

(** The world after [uuids] further draws of an identifier, [nows]
    further readings of the clock, and the PDUs [out] sent in order. *)
Definition after (w : World) (uuids nows : nat) (out : list PDU) : World :=
  {| uuid4_calls := uuid4_calls w + uuids;
     now_calls := now_calls w + nows;
     written := written w ++ map get_bin out |}.

(** The two PDUs that answer a [submit_sm] when [u] identifiers and [n]
    clock readings have been drawn before it. *)
Definition submit_output (u n : nat) (p : pdu) : list PDU :=
  [SubmitSMResp (sequence_number (header p)) (uuid4_str u);
   DeliverSM 1
     (receipt_text (uuid4_str u) (now_strftime n) (now_strftime (S n)))].

Fixpoint submits_output (u n : nat) (ps : list pdu) : list PDU :=
  match ps with
  | [] => []
  | p :: rest => submit_output u n p ++ submits_output (S u) (S (S n)) rest
  end.

(** The message identifiers carried by the submit acknowledgments of a
    list of sent PDUs, and the sequence numbers of its delivery
    notifications. *)
Fixpoint message_ids (out : list PDU) : list string :=
  match out with
  | [] => []
  | SubmitSMResp _ message_id :: rest => message_id :: message_ids rest
  | _ :: rest => message_ids rest
  end.

Fixpoint notification_sequence_numbers (out : list PDU) : list Z :=
  match out with
  | [] => []
  | DeliverSM seq _ :: rest => seq :: notification_sequence_numbers rest
  | _ :: rest => notification_sequence_numbers rest
  end.

(** A direct reply echoes the sequence number [seq] of the request; a
    delivery notification carries the number the server chose. *)
Definition echoes_or_notifies (seq : Z) (reply : PDU) : Prop :=
  match reply with
  | BindTransceiverResp s _ | EnquireLinkResp s | SubmitSMResp s _ => s = seq
  | DeliverSM s _ => s = 1%Z
  end.

Definition successful (name : string) (p : pdu) : Prop :=
  command_id (header p) = name /\ command_status (header p) = "ESME_ROK".

(** ** Reading the length field *)

Lemma digit16_hexdigit (n : N) :
  n < 16 -> PyInt.digit16 (Binascii.hexdigit n) = Some n.
Proof.
  intros Hn. destruct n as [| p]; [reflexivity |].
  do 4 (destruct p as [p | p |]; try reflexivity); lia.
Qed.

Lemma byte_to_N_lt (b : byte) : Byte.to_N b < 256.
Proof. destruct b; reflexivity. Qed.

Lemma digits16_b2a_hex (data : bytes) (acc : N) :
  PyInt.digits16 acc (Binascii.b2a_hex data)
  = Some (fold_left (fun a b => 256 * a + Byte.to_N b) data acc).
Proof.
  revert acc. induction data as [| b rest IH]; intros acc; [reflexivity |].
  pose proof (byte_to_N_lt b) as Hb.
  cbn [Binascii.b2a_hex PyInt.digits16 fold_left].
  rewrite digit16_hexdigit by (apply N.Div0.div_lt_upper_bound; lia).
  rewrite digit16_hexdigit by (apply N.mod_lt; lia).
  rewrite IH. do 2 f_equal.
  pose proof (N.div_mod (Byte.to_N b) 16). lia.
Qed.

(** On the hexadecimal rendering of a non-empty byte string, [int(_, 16)]
    never fails and returns its big-endian value. *)
Lemma int16_b2a_hex (data : bytes) :
  data <> [] -> PyInt.int16 (Binascii.b2a_hex data) = Some (be_uint data).
Proof.
  intros Hne. destruct data as [| b rest]; [congruence |].
  change (PyInt.int16 (Binascii.b2a_hex (b :: rest)))
    with (PyInt.digits16 0 (Binascii.b2a_hex (b :: rest))).
  apply digits16_b2a_hex.
Qed.

Lemma take4_nonempty (buf : bytes) :
  16 <= N.of_nat (length buf) -> take 4 buf <> [].
Proof. destruct buf; cbn; [lia | congruence]. Qed.

(** [popData] runs the extraction algorithm on [self.datastream], returns
    its frame and stores its remainder; it never raises and it touches
    nothing else. *)
Lemma popData_extractFrame (w : World) (self : SmscServer) :
  popData w self
  = Returns (extractFrame (datastream self)).1 w
      {| datastream := (extractFrame (datastream self)).2 |}.
Proof.
  destruct self as [buf]. unfold popData, extractFrame, mbind, M_bind, bind.
  cbn [get_datastream datastream].
  destruct (N.leb_spec 16 (N.of_nat (length buf))) as [Hlen | Hlen].
  - destruct (N.ltb_spec (N.of_nat (length buf)) 16); [lia |].
    rewrite int16_b2a_hex by (by apply take4_nonempty).
    cbn zeta.
    destruct (N.leb_spec (be_uint (take 4 buf)) (N.of_nat (length buf)));
      destruct (N.ltb_spec (N.of_nat (length buf)) (be_uint (take 4 buf)));
      try lia; reflexivity.
  - destruct (N.ltb_spec (N.of_nat (length buf)) 16); [| lia].
    reflexivity.
Qed.

(** ** The frame buffer *)

Lemma extractFrame_short (buf : bytes) :
  N.of_nat (length buf) < 16 -> extractFrame buf = (None, buf).
Proof.
  intros H. unfold extractFrame.
  by destruct (N.ltb_spec (N.of_nat (length buf)) 16); [| lia].
Qed.

Lemma extractFrame_incomplete (buf : bytes) :
  N.of_nat (length buf) < be_uint (take 4 buf) -> extractFrame buf = (None, buf).
Proof.
  intros H. unfold extractFrame.
  destruct (N.ltb_spec (N.of_nat (length buf)) 16); [done |].
  by destruct (N.ltb_spec (N.of_nat (length buf)) (be_uint (take 4 buf))); [| lia].
Qed.

Lemma extractFrame_complete (buf : bytes) :
  16 <= N.of_nat (length buf) ->
  be_uint (take 4 buf) <= N.of_nat (length buf) ->
  extractFrame buf
  = (Some (take (N.to_nat (be_uint (take 4 buf))) buf),
     drop (N.to_nat (be_uint (take 4 buf))) buf).
Proof.
  intros H16 Hn. unfold extractFrame.
  destruct (N.ltb_spec (N.of_nat (length buf)) 16); [lia |].
  by destruct (N.ltb_spec (N.of_nat (length buf)) (be_uint (take 4 buf))); [lia |].
Qed.

Lemma extractFrame_Some (buf frame rest : bytes) :
  extractFrame buf = (Some frame, rest) ->
  16 <= N.of_nat (length buf)
  /\ N.of_nat (length frame) = be_uint (take 4 buf)
  /\ buf = frame ++ rest.
Proof.
  unfold extractFrame.
  destruct (N.ltb_spec (N.of_nat (length buf)) 16); [congruence |].
  destruct (N.ltb_spec (N.of_nat (length buf)) (be_uint (take 4 buf)));
    [congruence |].
  intros [= <- <-]. split; [done |]. split.
  - rewrite length_take. lia.
  - by rewrite take_drop.
Qed.

(** C1.  [popData] follows the extraction algorithm.  With [buf] the
    buffered bytes and [n] the unsigned big-endian integer in the first
    four of them: with fewer than 16 bytes buffered it returns [None];
    with at least 16 but fewer than [n] it returns [None]; otherwise it
    returns the first [n] bytes and leaves the bytes after them buffered,
    in order.  In each case it does not raise and changes nothing else.
    Conversely a frame is returned only when at least 16 bytes and the
    whole declared length are buffered, and it is exactly the declared
    prefix of the buffer. *)
Theorem popData_follows_algorithm (w : World) (self : SmscServer) :
  let buf := datastream self in
  let n := be_uint (take 4 buf) in
  (N.of_nat (length buf) < 16 -> popData w self = Returns None w self)
  /\ (16 <= N.of_nat (length buf) -> N.of_nat (length buf) < n ->
      popData w self = Returns None w self)
  /\ (16 <= N.of_nat (length buf) -> n <= N.of_nat (length buf) ->
      exists frame rest,
        popData w self = Returns (Some frame) w {| datastream := rest |}
        /\ buf = frame ++ rest
        /\ N.of_nat (length frame) = n)
  /\ (forall frame w' self',
        popData w self = Returns (Some frame) w' self' ->
        16 <= N.of_nat (length buf)
        /\ n <= N.of_nat (length buf)
        /\ N.of_nat (length frame) = n
        /\ buf = frame ++ datastream self'
        /\ w' = w).
Proof.
  intros buf n. subst buf n. rewrite popData_extractFrame.
  destruct self as [buf]. cbn [datastream].
  split; [| split; [| split]].
  - intros H. by rewrite extractFrame_short.
  - intros _ H. by rewrite extractFrame_incomplete.
  - intros H16 Hn. rewrite extractFrame_complete by done. cbn [fst snd].
    eexists _, _. split; [done |]. split.
    + by rewrite take_drop.
    + rewrite length_take. lia.
  - intros frame w' self'.
    destruct (extractFrame buf) as [data rest] eqn:E. cbn [fst snd].
    intros [= -> <- <-]. apply extractFrame_Some in E as (H16 & Hn & Hbuf).
    cbn [datastream]. repeat split; try done.
    rewrite <- Hn, Hbuf, length_app. lia.
Qed.

(** C3, as the code has it.  For every buffer whose first four bytes
    declare a frame length of 4, extraction signals no fault: with at
    least 16 bytes buffered it returns the first four bytes as the frame
    and leaves the rest buffered, and with fewer than 16 bytes buffered
    it returns [None] and leaves the buffer as it is. *)
Theorem popData_declared_length_4 (w : World) (self : SmscServer) :
  be_uint (take 4 (datastream self)) = 4 ->
  (16 <= N.of_nat (length (datastream self)) ->
   popData w self
   = Returns (Some (take 4 (datastream self))) w
       {| datastream := drop 4 (datastream self) |})
  /\ (N.of_nat (length (datastream self)) < 16 ->
      popData w self = Returns None w self).
Proof.
  intros H4. rewrite popData_extractFrame.
  destruct self as [buf]. cbn [datastream] in *. split.
  - intros H16. rewrite extractFrame_complete by lia. by rewrite H4.
  - intros H. by rewrite extractFrame_short.
Qed.

(** ** The command handlers *)

Lemma after_0 (w : World) : after w 0 0 [] = w.
Proof.
  destruct w as [u n out]. unfold after. cbn.
  by rewrite !Nat.add_0_r, app_nil_r.
Qed.

Lemma after_after (w : World) (u1 n1 u2 n2 : nat) (out1 out2 : list PDU) :
  after (after w u1 n1 out1) u2 n2 out2 = after w (u1 + u2) (n1 + n2) (out1 ++ out2).
Proof.
  unfold after. cbn. f_equal; [lia | lia |].
  by rewrite map_app, app_assoc.
Qed.

Lemma sendPDU_outcome (p : PDU) (w : World) (self : SmscServer) :
  sendPDU p w self
  = match unpack_pdu (get_bin p) with
    | inl e => Raises e w self
    | inr _ => Returns tt (after w 0 0 [p]) self
    end.
Proof.
  unfold sendPDU. destruct (unpack_pdu (get_bin p)); [done |].
  unfold transport_write, after. cbn. by rewrite !Nat.add_0_r.
Qed.

Lemma sendPDU_after (p : PDU) (w : World) (self : SmscServer) :
  loggable p ->
  sendPDU p w self = Returns tt (after w 0 0 [p]) self.
Proof. intros [decoded E]. by rewrite sendPDU_outcome, E. Qed.

Lemma handle_bind_transceiver_outcome (p : pdu) (b : pdu_body)
    (params : gmap string string) (identity : string)
    (w : World) (self : SmscServer) :
  command_status (header p) = "ESME_ROK" ->
  body p = Some b ->
  mandatory_parameters b = Some params ->
  params !! "system_id" = Some identity ->
  handle_bind_transceiver p w self
  = sendPDU (BindTransceiverResp (sequence_number (header p)) identity) w self.
Proof.
  intros Hst Hb Hmp Hid. unfold handle_bind_transceiver.
  rewrite Hst, Hb. cbn. unfold mbind, M_bind, bind. cbn.
  rewrite Hmp. cbn. by rewrite Hid.
Qed.

Lemma handle_bind_transceiver_ok (p : pdu) (b : pdu_body)
    (params : gmap string string) (identity : string)
    (w : World) (self : SmscServer) :
  command_status (header p) = "ESME_ROK" ->
  body p = Some b ->
  mandatory_parameters b = Some params ->
  params !! "system_id" = Some identity ->
  loggable (BindTransceiverResp (sequence_number (header p)) identity) ->
  handle_bind_transceiver p w self
  = Returns tt
      (after w 0 0 [BindTransceiverResp (sequence_number (header p)) identity])
      self.
Proof.
  intros Hst Hb Hmp Hid Hlog.
  rewrite (handle_bind_transceiver_outcome p b params identity) by done.
  by apply sendPDU_after.
Qed.

Lemma handle_enquire_link_outcome (p : pdu) (w : World) (self : SmscServer) :
  command_status (header p) = "ESME_ROK" ->
  handle_enquire_link p w self
  = sendPDU (EnquireLinkResp (sequence_number (header p))) w self.
Proof.
  intros Hst. unfold handle_enquire_link. by rewrite Hst, String.eqb_refl.
Qed.

Lemma handle_enquire_link_ok (p : pdu) (w : World) (self : SmscServer) :
  command_status (header p) = "ESME_ROK" ->
  loggable (EnquireLinkResp (sequence_number (header p))) ->
  handle_enquire_link p w self
  = Returns tt (after w 0 0 [EnquireLinkResp (sequence_number (header p))]) self.
Proof.
  intros Hst Hlog. rewrite handle_enquire_link_outcome by done.
  by apply sendPDU_after.
Qed.

(** The acknowledgment and the notification that answer a submit are
    sent one after the other; the first that the codec cannot decode
    stops the handler. *)
Lemma handle_submit_sm_outcome (p : pdu) (w : World) (self : SmscServer) :
  command_status (header p) = "ESME_ROK" ->
  handle_submit_sm p w self
  = match submit_output (uuid4_calls w) (now_calls w) p with
    | [ack; notification] =>
        match unpack_pdu (get_bin ack) with
        | inl e => Raises e (after w 1 0 []) self
        | inr _ =>
            match unpack_pdu (get_bin notification) with
            | inl e => Raises e (after w 1 2 [ack]) self
            | inr _ => Returns tt (after w 1 2 [ack; notification]) self
            end
        end
    | _ => OutOfFuel
    end.
Proof.
  intros Hst. unfold handle_submit_sm. rewrite Hst, String.eqb_refl.
  unfold submit_output, mbind, M_bind, bind, uuid4. cbv beta.
  rewrite sendPDU_outcome.
  destruct (unpack_pdu (get_bin (SubmitSMResp _ _))) as [e | d1].
  { unfold after. cbn. by rewrite Nat.add_0_r, app_nil_r, Nat.add_1_r. }
  unfold delivery_report, mbind, M_bind, bind, now. cbn.
  rewrite sendPDU_outcome. unfold after. cbn.
  rewrite !Nat.add_0_r, <- !app_assoc, Nat.add_1_r. cbn.
  replace (now_calls w + 2)%nat with (S (S (now_calls w))) by lia.
  by destruct (unpack_pdu (get_bin (DeliverSM _ _))) as [e | d2].
Qed.

Lemma handle_submit_sm_ok (p : pdu) (w : World) (self : SmscServer) :
  command_status (header p) = "ESME_ROK" ->
  Forall loggable (submit_output (uuid4_calls w) (now_calls w) p) ->
  handle_submit_sm p w self
  = Returns tt
      (after w 1 2 (submit_output (uuid4_calls w) (now_calls w) p)) self.
Proof.
  intros Hst Hlog. rewrite handle_submit_sm_outcome by done.
  unfold submit_output in *.
  apply Forall_cons in Hlog as [[d1 E1] Hlog].
  apply Forall_cons in Hlog as [[d2 E2] _].
  by rewrite E1, E2.
Qed.

Lemma handler_failed_status (p : pdu) (w : World) (self : SmscServer) :
  command_status (header p) <> "ESME_ROK" ->
  handle_bind_transceiver p w self = Returns tt w self
  /\ handle_submit_sm p w self = Returns tt w self
  /\ handle_enquire_link p w self = Returns tt w self.
Proof.
  intros Hst. apply String.eqb_neq in Hst.
  unfold handle_bind_transceiver, handle_submit_sm, handle_enquire_link.
  by rewrite Hst.
Qed.

(** [dispatch] runs the one handler that the command identifier
    selects. *)
Lemma dispatch_bind (p : pdu) (w : World) (self : SmscServer) :
  command_id (header p) = "bind_transceiver" ->
  dispatch p w self
  = match handle_bind_transceiver p w self with
    | Returns _ w' self' => Returns tt w' self'
    | other => other
    end.
Proof.
  intros Hid. unfold dispatch. rewrite Hid. cbn.
  unfold mbind, M_bind, bind.
  by destruct (handle_bind_transceiver p w self) as [[] ? ? | |].
Qed.

Lemma dispatch_submit (p : pdu) (w : World) (self : SmscServer) :
  command_id (header p) = "submit_sm" ->
  dispatch p w self
  = match handle_submit_sm p w self with
    | Returns _ w' self' => Returns tt w' self'
    | other => other
    end.
Proof.
  intros Hid. unfold dispatch. rewrite Hid. cbn.
  unfold mbind, M_bind, bind. cbn.
  by destruct (handle_submit_sm p w self) as [[] ? ? | |].
Qed.

Lemma dispatch_enquire (p : pdu) (w : World) (self : SmscServer) :
  command_id (header p) = "enquire_link" ->
  dispatch p w self = handle_enquire_link p w self.
Proof.
  intros Hid. unfold dispatch. rewrite Hid. cbn.
  unfold mbind, M_bind, bind. cbn. done.
Qed.

Lemma dispatch_other (p : pdu) (w : World) (self : SmscServer) :
  command_id (header p) <> "bind_transceiver" ->
  command_id (header p) <> "submit_sm" ->
  command_id (header p) <> "enquire_link" ->
  dispatch p w self = Returns tt w self.
Proof.
  intros H1 H2 H3. apply String.eqb_neq in H1, H2, H3.
  unfold dispatch. by rewrite H1, H2, H3.
Qed.

Lemma append_assoc (a b c : string) : (a +:+ b) +:+ c = a +:+ (b +:+ c).
Proof.
  induction a as [| ch a IH]; [done |].
  change (String ch ((a +:+ b) +:+ c) = String ch (a +:+ (b +:+ c))).
  by rewrite IH.
Qed.

Lemma receipt_text_contains_id (message_id submit_date done_date : string) :
  contains (receipt_text message_id submit_date done_date) message_id.
Proof. by exists "id:", (" sub:001 dlvrd:001 submit date:" +:+ submit_date
    +:+ " done date:" +:+ done_date +:+ " stat:DELIVRD err:000 text:"). Qed.

Lemma receipt_text_contains_status (message_id submit_date done_date : string) :
  contains (receipt_text message_id submit_date done_date) "stat:DELIVRD".
Proof.
  exists ("id:" +:+ message_id +:+ " sub:001 dlvrd:001 submit date:"
          +:+ submit_date +:+ " done date:" +:+ done_date +:+ " "),
    " err:000 text:".
  unfold receipt_text. by rewrite !append_assoc.
Qed.

Lemma dispatchAll_submits (ps : list pdu) (w : World) (self : SmscServer) :
  (forall q, loggable q) ->
  Forall (successful "submit_sm") ps ->
  dispatchAll ps w self
  = Returns tt
      (after w (length ps) (2 * length ps)
         (submits_output (uuid4_calls w) (now_calls w) ps))
      self.
Proof.
  intros Hlog Hps. revert w. induction Hps as [| p ps [Hid Hst] _ IH]; intros w.
  - cbn. by rewrite after_0.
  - cbn [dispatchAll]. unfold mbind, M_bind, bind.
    rewrite dispatch_submit, handle_submit_sm_ok;
      [| done | by apply Forall_forall | done].
    rewrite IH, after_after. cbn [submits_output length].
    unfold after at 2 3. cbn [uuid4_calls now_calls].
    replace (uuid4_calls w + 1)%nat with (S (uuid4_calls w)) by lia.
    replace (now_calls w + 2)%nat with (S (S (now_calls w))) by lia.
    f_equal. unfold after. f_equal; lia.
Qed.

Lemma handle_submit_sm_returns (p : pdu) (w w' : World)
    (self self' : SmscServer) :
  command_status (header p) = "ESME_ROK" ->
  handle_submit_sm p w self = Returns tt w' self' ->
  self' = self
  /\ w' = after w 1 2 (submit_output (uuid4_calls w) (now_calls w) p).
Proof.
  intros Hst. rewrite handle_submit_sm_outcome by done. unfold submit_output.
  destruct (unpack_pdu (get_bin (SubmitSMResp _ _))); [done |].
  destruct (unpack_pdu (get_bin (DeliverSM _ _))); [done |].
  by intros [= <- <-].
Qed.

(** Whenever dispatching a list of successful submits returns, it has
    written the acknowledgment and the notification of each, in order. *)
Lemma dispatchAll_submits_returns (ps : list pdu) :
  Forall (successful "submit_sm") ps ->
  forall (w w' : World) (self self' : SmscServer),
    dispatchAll ps w self = Returns tt w' self' ->
    self' = self
    /\ w' = after w (length ps) (2 * length ps)
              (submits_output (uuid4_calls w) (now_calls w) ps).
Proof.
  induction 1 as [| p ps [Hid Hst] _ IH]; intros w w' self self'.
  - cbn. intros [= <- <-]. by rewrite after_0.
  - cbn [dispatchAll]. unfold mbind, M_bind, bind.
    rewrite dispatch_submit by done.
    destruct (handle_submit_sm p w self) as [[] w1 self1 | |] eqn:Hh;
      [| done | done].
    apply handle_submit_sm_returns in Hh as [-> ->]; [| done].
    intros Hrest. apply IH in Hrest as [-> ->]. split; [done |].
    rewrite after_after. cbn [submits_output length].
    unfold after at 2 3. cbn [uuid4_calls now_calls].
    replace (uuid4_calls w + 1)%nat with (S (uuid4_calls w)) by lia.
    replace (now_calls w + 2)%nat with (S (S (now_calls w))) by lia.
    unfold after. f_equal; lia.
Qed.

Lemma message_ids_submits_output (u n : nat) (ps : list pdu) :
  message_ids (submits_output u n ps) = uuid4_str <$> seq u (length ps).
Proof.
  revert u n. induction ps as [| p ps IH]; intros u n; [done |].
  cbn. by rewrite IH.
Qed.

Lemma notifications_submits_output (u n : nat) (ps : list pdu) :
  notification_sequence_numbers (submits_output u n ps)
  = repeat 1%Z (length ps).
Proof.
  revert u n. induction ps as [| p ps IH]; intros u n; [done |].
  cbn. by rewrite IH.
Qed.

(** C4, as the code has it.  For every bind command with success status,
    sequence number [s] and identity [i], provided the codec can decode
    the acknowledgment it encoded (which [sendPDU] does before it writes),
    dispatch writes exactly one PDU, the bind acknowledgment built from
    [s] and [i], draws nothing from the random or clock sources, and
    returns with the protocol object unchanged: its only attribute is
    the frame buffer, and no binding status or identity is stored in
    it. *)
Theorem bind_is_acknowledged (p : pdu) (b : pdu_body)
    (params : gmap string string) (i : string)
    (w : World) (self : SmscServer) :
  successful "bind_transceiver" p ->
  body p = Some b ->
  mandatory_parameters b = Some params ->
  params !! "system_id" = Some i ->
  loggable (BindTransceiverResp (sequence_number (header p)) i) ->
  dispatch p w self
  = Returns tt
      {| uuid4_calls := uuid4_calls w;
         now_calls := now_calls w;
         written :=
           written w ++ [get_bin (BindTransceiverResp (sequence_number (header p)) i)] |}
      self.
Proof.
  intros [Hid Hst] Hb Hmp Hi Hlog.
  rewrite dispatch_bind by done.
  rewrite (handle_bind_transceiver_ok p b params i) by done.
  unfold after. cbn. by rewrite !Nat.add_0_r.
Qed.

(** C5.  For every submit command with success status and sequence
    number [s], provided the codec can decode the two PDUs it encoded
    (which [sendPDU] does before it writes each), dispatch writes exactly
    two PDUs, in this order: a submit acknowledgment with sequence number
    [s] and a message identifier [X] that is the next draw of the
    identifier source, then a delivery notification whose text contains
    [X] and the marker ["stat:DELIVRD"]. *)
Theorem submit_is_acknowledged_then_notified (p : pdu) (w : World)
    (self : SmscServer) :
  successful "submit_sm" p ->
  Forall loggable (submit_output (uuid4_calls w) (now_calls w) p) ->
  exists X notification_seq text,
    dispatch p w self
    = Returns tt
        {| uuid4_calls := S (uuid4_calls w);
           now_calls := S (S (now_calls w));
           written :=
             written w
             ++ [get_bin (SubmitSMResp (sequence_number (header p)) X);
                 get_bin (DeliverSM notification_seq text)] |}
        self
    /\ X = uuid4_str (uuid4_calls w)
    /\ contains text X
    /\ contains text "stat:DELIVRD".
Proof.
  intros [Hid Hst] Hlog.
  eexists (uuid4_str (uuid4_calls w)), 1%Z, _.
  split; [| split; [done | split]].
  - rewrite dispatch_submit, handle_submit_sm_ok by done.
    unfold after, submit_output. cbn. do 2 f_equal; lia.
  - apply receipt_text_contains_id.
  - apply receipt_text_contains_status.
Qed.

(** C6.  A decoded command whose status is not ["ESME_ROK"], or whose
    identifier is none of ["bind_transceiver"], ["submit_sm"] and
    ["enquire_link"], is dispatched without effect: nothing is written,
    nothing is drawn, and the protocol object is unchanged. *)
Theorem failed_or_unrecognized_is_noop (p : pdu) (w : World)
    (self : SmscServer) :
  command_status (header p) <> "ESME_ROK"
  \/ (command_id (header p) <> "bind_transceiver"
      /\ command_id (header p) <> "submit_sm"
      /\ command_id (header p) <> "enquire_link") ->
  dispatch p w self = Returns tt w self.
Proof.
  intros [Hst | (H1 & H2 & H3)]; [| by apply dispatch_other].
  destruct (handler_failed_status p w self Hst) as (Hb & Hs & He).
  destruct (decide (command_id (header p) = "bind_transceiver")) as [E | N1].
  { by rewrite dispatch_bind, Hb. }
  destruct (decide (command_id (header p) = "submit_sm")) as [E | N2].
  { by rewrite dispatch_submit, Hs. }
  destruct (decide (command_id (header p) = "enquire_link")) as [E | N3].
  { by rewrite dispatch_enquire, He. }
  by apply dispatch_other.
Qed.

Lemma handle_bind_transceiver_returns (p : pdu) (w w' : World)
    (self self' : SmscServer) :
  handle_bind_transceiver p w self = Returns tt w' self' ->
  self' = self
  /\ (w' = w
      \/ exists i, w' = after w 0 0 [BindTransceiverResp (sequence_number (header p)) i]).
Proof.
  destruct (decide (command_status (header p) = "ESME_ROK")) as [Hst | Hst].
  - destruct (body p) as [b |] eqn:Hb;
      [destruct (mandatory_parameters b) as [params |] eqn:Hmp;
       [destruct (params !! "system_id") as [i |] eqn:Hi |] |].
    + rewrite (handle_bind_transceiver_outcome p b params i) by done.
      rewrite sendPDU_outcome.
      destruct (unpack_pdu (get_bin _)); [done |]. intros [= <- <-]. eauto.
    + unfold handle_bind_transceiver. rewrite Hst, Hb. cbn.
      unfold mbind, M_bind, bind. cbn. rewrite Hmp. cbn. rewrite Hi. cbn.
      discriminate.
    + unfold handle_bind_transceiver. rewrite Hst, Hb. cbn.
      unfold mbind, M_bind, bind. cbn. rewrite Hmp. cbn. discriminate.
    + unfold handle_bind_transceiver. rewrite Hst, Hb. cbn. discriminate.
  - destruct (handler_failed_status p w self Hst) as (-> & _).
    intros [= <- <-]. eauto.
Qed.

(** C7.  Whenever dispatch of a command returns, what it wrote is the
    encoding of a list of PDUs in which every direct reply (bind, submit
    or link-check acknowledgment) carries the sequence number of the
    command, and every delivery notification carries the sequence number
    1, whatever the command's sequence number is. *)
Theorem replies_echo_the_sequence_number (p : pdu) (w w' : World)
    (self self' : SmscServer) :
  dispatch p w self = Returns tt w' self' ->
  exists out,
    written w' = written w ++ map get_bin out
    /\ Forall (echoes_or_notifies (sequence_number (header p))) out.
Proof.
  assert (Hnone : forall v : World, written v = written v ++ map get_bin []).
  { intros v. cbn. by rewrite app_nil_r. }
  destruct (decide (command_id (header p) = "bind_transceiver")) as [E | N1].
  { rewrite dispatch_bind by done.
    destruct (handle_bind_transceiver p w self) as [[] v s | |] eqn:Hh;
      [| discriminate | discriminate].
    intros [= <- <-].
    apply handle_bind_transceiver_returns in Hh as (_ & [-> | [i ->]]).
    - exists []. split; [apply Hnone | constructor].
    - eexists. split; [reflexivity |]. by repeat constructor. }
  destruct (decide (command_id (header p) = "submit_sm")) as [E | N2].
  { rewrite dispatch_submit by done.
    destruct (decide (command_status (header p) = "ESME_ROK")) as [Hst | Hst].
    - destruct (handle_submit_sm p w self) as [[] v s | |] eqn:Hh;
        [| discriminate | discriminate].
      intros [= <- <-]. apply handle_submit_sm_returns in Hh as [_ ->]; [| done].
      eexists. split; [reflexivity |]. by repeat constructor.
    - destruct (handler_failed_status p w self Hst) as (_ & -> & _).
      intros [= <- <-]. exists []. split; [apply Hnone | constructor]. }
  destruct (decide (command_id (header p) = "enquire_link")) as [E | N3].
  { rewrite dispatch_enquire by done.
    destruct (decide (command_status (header p) = "ESME_ROK")) as [Hst | Hst].
    - rewrite handle_enquire_link_outcome, sendPDU_outcome by done.
      destruct (unpack_pdu (get_bin _)); [done |]. intros [= <- <-].
      eexists. split; [reflexivity |]. by repeat constructor.
    - destruct (handler_failed_status p w self Hst) as (_ & _ & ->).
      intros [= <- <-]. exists []. split; [apply Hnone | constructor]. }
  rewrite dispatch_other by done. intros [= <- <-].
  exists []. split; [apply Hnone | constructor].
Qed.

(** C8.  Provided the identifier source never returns the same value
    twice and the codec can decode what it encoded (which [sendPDU] does
    before it writes), N successful submit commands dispatched one after
    the other, from any state of the process, are acknowledged with N
    message identifiers that are pairwise distinct: the identifiers are N
    consecutive draws of the source, one per command. *)
Theorem message_identifiers_are_distinct (ps : list pdu) (w : World)
    (self : SmscServer) :
  (forall j k, uuid4_str j = uuid4_str k -> j = k) ->
  (forall q, loggable q) ->
  Forall (successful "submit_sm") ps ->
  exists out,
    dispatchAll ps w self
    = Returns tt
        {| uuid4_calls := uuid4_calls w + length ps;
           now_calls := now_calls w + 2 * length ps;
           written := written w ++ map get_bin out |}
        self
    /\ out = submits_output (uuid4_calls w) (now_calls w) ps
    /\ message_ids out = uuid4_str <$> seq (uuid4_calls w) (length ps)
    /\ length (message_ids out) = length ps
    /\ NoDup (message_ids out).
Proof.
  intros Hinj Hlog Hps. eexists. split; [by apply dispatchAll_submits |].
  split; [done |]. rewrite message_ids_submits_output.
  split; [done |]. split.
  - by rewrite length_fmap, length_seq.
  - assert (Inj (=) (=) uuid4_str) by exact Hinj.
    apply NoDup_fmap_2, NoDup_seq; done.
Qed.

(** C10.  The delivery notification that follows a successful submit
    carries sequence number 1, for every request and after any number of
    earlier submits.  Whenever dispatching a list of successful submit
    commands returns - and it does when the codec can decode what it
    encoded, which [sendPDU] does before it writes -, from any state of
    the process, it has written one acknowledgment and one notification
    per command, and every notification has sequence number 1. *)
Theorem notifications_carry_sequence_number_1 (ps : list pdu) (w : World)
    (self : SmscServer) :
  Forall (successful "submit_sm") ps ->
  exists out,
    out = submits_output (uuid4_calls w) (now_calls w) ps
    /\ notification_sequence_numbers out = repeat 1%Z (length ps)
    /\ (forall w' self',
          dispatchAll ps w self = Returns tt w' self' ->
          self' = self
          /\ w' = {| uuid4_calls := uuid4_calls w + length ps;
                     now_calls := now_calls w + 2 * length ps;
                     written := written w ++ map get_bin out |})
    /\ ((forall q, loggable q) ->
        dispatchAll ps w self
        = Returns tt
            {| uuid4_calls := uuid4_calls w + length ps;
               now_calls := now_calls w + 2 * length ps;
               written := written w ++ map get_bin out |}
            self).
Proof.
  intros Hps. eexists. split; [done |].
  split; [apply notifications_submits_output |]. split.
  - intros w' self' Hret. by apply dispatchAll_submits_returns in Hret.
  - intros Hlog. by apply dispatchAll_submits.
Qed.

(** ** Handlers leave the protocol object alone *)

Lemma oblivious_ret {A} (a : A) : oblivious (mret a : M A).
Proof. intros w. left. by exists a, w. Qed.

Lemma oblivious_raise {A} (e : exn) : oblivious (raise e : M A).
Proof. intros w. right. by exists e, w. Qed.

Lemma oblivious_bind {A B} (m : M A) (k : A -> M B) :
  oblivious m -> (forall a, oblivious (k a)) -> oblivious (m ≫= k).
Proof.
  intros Hm Hk w. unfold mbind, M_bind, bind.
  destruct (Hm w) as [(a & w1 & Ha) | (e & w1 & He)].
  - destruct (Hk a w1) as [(b & w2 & Hb) | (e & w2 & He)].
    + left. exists b, w2. intros self. by rewrite Ha, Hb.
    + right. exists e, w2. intros self. by rewrite Ha, He.
  - right. exists e, w1. intros self. by rewrite He.
Qed.

Lemma oblivious_getitem {A} (key : string) (entry : option A) :
  oblivious (getitem key entry).
Proof. destruct entry; [apply oblivious_ret | apply oblivious_raise]. Qed.

Lemma oblivious_sendPDU (p : PDU) : oblivious (sendPDU p).
Proof.
  intros w. destruct (unpack_pdu (get_bin p)) as [e | decoded] eqn:E.
  - right. exists e, w. intros self. by rewrite sendPDU_outcome, E.
  - left. eexists tt, _. intros self. by rewrite sendPDU_outcome, E.
Qed.

Lemma oblivious_uuid4 : oblivious uuid4.
Proof. intros w. left. by eexists _, _. Qed.

Lemma oblivious_now : oblivious now.
Proof. intros w. left. by eexists _, _. Qed.

Ltac oblivious :=
  repeat first
    [ apply oblivious_ret | apply oblivious_raise | apply oblivious_getitem
    | apply oblivious_sendPDU | apply oblivious_uuid4 | apply oblivious_now
    | apply oblivious_bind; [| intros ?]
    | match goal with |- oblivious (if ?c then _ else _) => destruct c end
    | match goal with |- oblivious (match ?c with _ => _ end) => destruct c end ].

Lemma oblivious_dispatch (p : pdu) : oblivious (dispatch p).
Proof.
  unfold dispatch, handle_bind_transceiver, handle_submit_sm,
    handle_enquire_link, delivery_report.
  oblivious.
Qed.

Lemma oblivious_handleData (data : bytes) : oblivious (handleData data).
Proof.
  unfold handleData.
  destruct (unpack_pdu data); [apply oblivious_raise | apply oblivious_dispatch].
Qed.

Lemma oblivious_handleAll (frames : list bytes) : oblivious (handleAll frames).
Proof.
  induction frames as [| frame rest IH]; cbn [handleAll].
  - apply oblivious_ret.
  - apply oblivious_bind; [apply oblivious_handleData | by intros _].
Qed.

(** ** Frames at the head of a stream *)

Lemma frame_at_head (frame rest : bytes) :
  valid_frame frame -> extractFrame (frame ++ rest) = (Some frame, rest).
Proof.
  intros [H16 Hlen].
  assert (4 <= length frame)%nat as H4 by lia.
  assert (take 4 (frame ++ rest) = take 4 frame) as Htake
    by (by apply take_app_le).
  rewrite extractFrame_complete.
  - by rewrite Htake, Hlen, Nat2N.id, take_app_length, drop_app_length.
  - rewrite length_app. lia.
  - rewrite Htake, Hlen, length_app. lia.
Qed.

Lemma prefix_of_frame_incomplete (buf missing : bytes) :
  valid_frame (buf ++ missing) -> missing <> [] ->
  extractFrame buf = (None, buf).
Proof.
  intros [H16 Hlen] Hne.
  destruct (N.lt_ge_cases (N.of_nat (length buf)) 16) as [Hshort | Hlong].
  { by apply extractFrame_short. }
  apply extractFrame_incomplete.
  rewrite take_app_le in Hlen by lia. rewrite Hlen, length_app.
  destruct missing; [done | cbn; lia].
Qed.

Lemma drains_concat (buf final : bytes) (frames : list bytes) :
  drains buf frames final -> buf = concat frames ++ final.
Proof.
  induction 1 as [buf _ | buf frame rest frames final E _ IH]; [done |].
  apply extractFrame_Some in E as (_ & _ & ->).
  cbn. by rewrite <- app_assoc, <- IH.
Qed.

Lemma drains_final (buf final : bytes) (frames : list bytes) :
  drains buf frames final -> extractFrame final = (None, final).
Proof. by induction 1. Qed.


Lemma extractFrame_empty_frame (buf rest : bytes) :
  extractFrame buf = (Some [], rest) ->
  rest = buf /\ 16 <= N.of_nat (length buf) /\ be_uint (take 4 buf) = 0.
Proof.
  intros E. apply extractFrame_Some in E as (H16 & Hlen & ->). by cbn in *.
Qed.

(** The loop cannot finish from a buffer that yields the empty frame. *)
Lemma drains_not_from_empty_frame (buf final : bytes) (frames : list bytes) :
  drains buf frames final -> extractFrame buf <> (Some [], buf).
Proof.
  induction 1 as [buf E | buf frame rest frames final E _ IH]; [congruence |].
  intros E'. rewrite E in E'. injection E' as -> ->. by apply IH.
Qed.

Lemma drains_frames_nonempty (buf final : bytes) (frames : list bytes) :
  drains buf frames final -> Forall (fun frame => frame <> []) frames.
Proof.
  induction 1 as [buf _ | buf frame rest frames final E Hrest IH]; constructor;
    [| done].
  intros ->. pose proof (extractFrame_empty_frame _ _ E) as (-> & _).
  by apply (drains_not_from_empty_frame _ _ _ Hrest).
Qed.

Lemma drains_count (buf final : bytes) (frames : list bytes) :
  drains buf frames final -> (length frames + length final <= length buf)%nat.
Proof.
  intros H. pose proof (drains_frames_nonempty _ _ _ H) as Hne.
  rewrite (drains_concat _ _ _ H), length_app.
  enough (length frames <= length (concat frames))%nat by lia.
  clear H. induction Hne as [| [| b frame] frames Hf _ IH]; cbn; [lia | done |].
  rewrite length_app. lia.
Qed.

(** From a buffer that is a prefix of a stream of valid frames followed
    by a strictly partial one, the loop extracts the frames that are
    complete in the buffer, in order, and leaves what follows them. *)
Lemma stream_drains (frames : list bytes) (part buf rest : bytes) :
  Forall valid_frame frames ->
  strictly_partial part ->
  buf ++ rest = concat frames ++ part ->
  exists k final,
    drains buf (take k frames) final
    /\ final ++ rest = concat (drop k frames) ++ part.
Proof.
  intros Hvalid (whole & missing & Hwhole & -> & Hmissing).
  revert buf. induction Hvalid as [| frame frames Hframe _ IH]; intros buf Hbuf.
  - exists 0%nat, buf. split; [| done]. constructor. cbn in Hbuf.
    apply (prefix_of_frame_incomplete buf (rest ++ missing)).
    + by rewrite app_assoc, Hbuf.
    + destruct rest; [done | by cbn].
  - cbn [concat] in Hbuf. rewrite <- app_assoc in Hbuf.
    destruct (decide (length frame <= length buf)%nat) as [Hle | Hgt].
    + assert (buf = frame ++ drop (length frame) buf) as Hsplit.
      { rewrite <- (take_drop (length frame) buf) at 1. f_equal.
        rewrite <- (take_app_le buf rest) by done.
        by rewrite Hbuf, take_app_length. }
      rewrite Hsplit, <- app_assoc in Hbuf. apply app_inv_head in Hbuf.
      destruct (IH _ Hbuf) as (k & final & Hdrains & Hfinal).
      exists (S k), final. split; [| done]. rewrite Hsplit. cbn [take].
      eapply drains_step; [by apply frame_at_head | done].
    + exists 0%nat, buf. split; [| by cbn; rewrite <- app_assoc]. constructor.
      apply (prefix_of_frame_incomplete buf (drop (length buf) frame)).
      * replace buf with (take (length buf) frame) at 1;
          [by rewrite take_drop |].
        rewrite <- (take_app_le frame (concat frames ++ part)) by lia.
        by rewrite <- Hbuf, take_app_length.
      * intros Hnil. apply (f_equal length) in Hnil.
        rewrite length_drop in Hnil. cbn in Hnil. lia.
Qed.

(** ** The loops against the relation *)

Lemma popData_None (buf : bytes) (w : World) :
  extractFrame buf = (None, buf) ->
  popData w {| datastream := buf |} = Returns None w {| datastream := buf |}.
Proof. intros E. rewrite popData_extractFrame. cbn. by rewrite E. Qed.

Lemma popData_Some (buf frame rest : bytes) (w : World) :
  extractFrame buf = (Some frame, rest) ->
  popData w {| datastream := buf |}
  = Returns (Some frame) w {| datastream := rest |}.
Proof. intros E. rewrite popData_extractFrame. cbn. by rewrite E. Qed.

Lemma drains_drain (buf final : bytes) (frames : list bytes) :
  drains buf frames final ->
  forall fuel w,
    (length frames <= fuel)%nat ->
    drain fuel w {| datastream := buf |}
    = Returns frames w {| datastream := final |}.
Proof.
  induction 1 as [buf E | buf frame rest frames final E _ IH];
    intros fuel w Hfuel.
  - destruct fuel; cbn [drain]; unfold mbind, M_bind, bind;
      by rewrite popData_None.
  - destruct fuel as [| fuel]; [cbn in Hfuel; lia |].
    cbn [drain]. unfold mbind, M_bind, bind.
    rewrite (popData_Some _ _ _ _ E).
    change (match drain fuel w {| datastream := rest |} with
            | Returns a w' self' => Returns (frame :: a) w' self'
            | Raises e w' self' => Raises e w' self'
            | OutOfFuel => OutOfFuel
            end = Returns (frame :: frames) w {| datastream := final |}).
    rewrite IH by (cbn in Hfuel; lia). done.
Qed.

Lemma popData_then_loop_None (buf : bytes) (fuel : nat) (w : World) :
  extractFrame buf = (None, buf) ->
  popData_then_loop fuel w {| datastream := buf |}
  = Returns tt w {| datastream := buf |}.
Proof.
  intros E. unfold popData_then_loop, mbind, M_bind, bind.
  rewrite popData_None by done. by destruct fuel.
Qed.

Lemma popData_then_loop_Some (buf frame rest : bytes) (fuel : nat) (w : World) :
  extractFrame buf = (Some frame, rest) ->
  popData_then_loop (S fuel) w {| datastream := buf |}
  = match handleData frame w {| datastream := rest |} with
    | Returns _ w' self' => popData_then_loop fuel w' self'
    | Raises e w' self' => Raises e w' self'
    | OutOfFuel => OutOfFuel
    end.
Proof.
  intros E. unfold popData_then_loop at 1. unfold mbind, M_bind, bind.
  by rewrite (popData_Some _ _ _ _ E).
Qed.

Lemma popData_then_loop_Some_0 (buf frame rest : bytes) (w : World) :
  extractFrame buf = (Some frame, rest) ->
  popData_then_loop 0 w {| datastream := buf |} = OutOfFuel.
Proof.
  intros E. unfold popData_then_loop, mbind, M_bind, bind.
  by rewrite (popData_Some _ _ _ _ E).
Qed.

(** The loop of [dataReceived] hands to [handleData] the frames that the
    relation lists, in order, and stops where [handleData] first raises;
    when no call raises it leaves the final buffer behind. *)
Lemma drains_loop (buf final : bytes) (frames : list bytes) :
  drains buf frames final ->
  forall fuel w self0,
    (length frames <= fuel)%nat ->
    match handleAll frames w self0 with
    | Returns _ w' _ =>
        popData_then_loop fuel w {| datastream := buf |}
        = Returns tt w' {| datastream := final |}
    | Raises e w' _ =>
        exists self', popData_then_loop fuel w {| datastream := buf |}
                      = Raises e w' self'
    | OutOfFuel => False
    end.
Proof.
  induction 1 as [buf E | buf frame rest frames final E _ IH];
    intros fuel w self0 Hfuel.
  - cbn. by apply popData_then_loop_None.
  - destruct fuel as [| fuel]; [cbn in Hfuel; lia |].
    rewrite (popData_then_loop_Some _ _ _ _ _ E).
    cbn [handleAll]. unfold mbind, M_bind at 1, bind.
    destruct (oblivious_handleData frame w) as [([] & w1 & Hh) | (e & w1 & Hh)];
      rewrite !Hh.
    + apply IH. cbn in Hfuel. lia.
    + eauto.
Qed.

Lemma handleAll_app (xs ys : list bytes) (w : World) (self : SmscServer) :
  handleAll (xs ++ ys) w self = (handleAll xs;; handleAll ys) w self.
Proof.
  revert w self. induction xs as [| x xs IH]; intros w self; [done |].
  cbn [handleAll app]. unfold mbind, M_bind, bind.
  destruct (handleData x w self) as [[] w1 self1 | |]; [| done | done].
  by rewrite IH.
Qed.

Lemma drained_stream_is_partial (frames : list bytes) (part buf : bytes) :
  Forall valid_frame frames ->
  buf = concat frames ++ part ->
  extractFrame buf = (None, buf) ->
  frames = [] /\ buf = part.
Proof.
  intros Hvalid -> E. destruct Hvalid as [| frame frames Hframe _]; [done |].
  cbn in E. rewrite <- app_assoc, frame_at_head in E by done. discriminate.
Qed.

Lemma feed_stream (part : bytes) (chunks : list bytes) :
  strictly_partial part ->
  forall (frames : list bytes) (buf : bytes) (fuel : nat) (w : World),
    Forall valid_frame frames ->
    buf ++ concat chunks = concat frames ++ part ->
    extractFrame buf = (None, buf) ->
    (length buf + length (concat chunks) <= fuel)%nat ->
    feed fuel chunks w {| datastream := buf |}
    = Returns frames w {| datastream := part |}.
Proof.
  intros Hpart.
  induction chunks as [| chunk chunks IH];
    intros frames buf fuel w Hvalid Hstream Hdrained Hfuel.
  - cbn in Hstream. rewrite app_nil_r in Hstream.
    destruct (drained_stream_is_partial frames part buf) as [-> ->]; done.
  - cbn [concat] in Hstream, Hfuel. rewrite app_assoc in Hstream.
    rewrite length_app in Hfuel.
    destruct (stream_drains frames part (buf ++ chunk) (concat chunks))
      as (k & final & Hdrains & Hfinal); [done .. |].
    pose proof (drains_count _ _ _ Hdrains) as Hcount.
    rewrite length_app in Hcount.
    cbn [feed]. unfold mbind, M_bind, bind. cbn [get_datastream set_datastream datastream].
    rewrite (drains_drain _ _ _ Hdrains) by lia.
    rewrite (IH (drop k frames) final);
      [by rewrite take_drop | by apply Forall_drop | done
      | by eapply drains_final | lia].
Qed.

Lemma dataReceived_unfold (fuel : nat) (data buf : bytes) (w : World) :
  dataReceived fuel data w {| datastream := buf |}
  = popData_then_loop fuel w {| datastream := buf ++ data |}.
Proof. done. Qed.

Lemma deliver_stream (part : bytes) (chunks : list bytes) :
  strictly_partial part ->
  forall (frames : list bytes) (buf : bytes) (fuel : nat) (w : World)
         (self0 : SmscServer),
    Forall valid_frame frames ->
    buf ++ concat chunks = concat frames ++ part ->
    extractFrame buf = (None, buf) ->
    (length buf + length (concat chunks) <= fuel)%nat ->
    match handleAll frames w self0 with
    | Returns _ w' _ =>
        deliver fuel chunks w {| datastream := buf |}
        = Returns tt w' {| datastream := part |}
    | Raises e w' _ =>
        exists self', deliver fuel chunks w {| datastream := buf |}
                      = Raises e w' self'
    | OutOfFuel => False
    end.
Proof.
  intros Hpart.
  induction chunks as [| chunk chunks IH];
    intros frames buf fuel w self0 Hvalid Hstream Hdrained Hfuel.
  - cbn in Hstream. rewrite app_nil_r in Hstream.
    destruct (drained_stream_is_partial frames part buf) as [-> ->]; done.
  - cbn [concat] in Hstream, Hfuel. rewrite app_assoc in Hstream.
    rewrite length_app in Hfuel.
    destruct (stream_drains frames part (buf ++ chunk) (concat chunks))
      as (k & final & Hdrains & Hfinal); [done .. |].
    pose proof (drains_count _ _ _ Hdrains) as Hcount.
    rewrite length_app in Hcount.
    assert (length (take k frames) <= fuel)%nat as Hk by lia.
    pose proof (drains_loop _ _ _ Hdrains fuel w self0 Hk) as Hloop.
    pose proof (handleAll_app (take k frames) (drop k frames) w self0) as Happ.
    rewrite take_drop in Happ. rewrite Happ. clear Happ.
    cbn [deliver]. unfold mbind, M_bind, bind.
    rewrite dataReceived_unfold.
    destruct (oblivious_handleAll (take k frames) w)
      as [([] & w1 & Hh) | (e & w1 & Hh)]; rewrite Hh in Hloop |- *.
    + rewrite Hloop.
      apply IH; [by apply Forall_drop | done | by eapply drains_final | lia].
    + destruct Hloop as [self' ->]. eauto.
Qed.

(** C2.  Framing composition.  Let the chunks, concatenated, be the
    encodings of N valid frames back to back followed by a strictly
    partial frame, and let the fuel cover the length of the stream.
    Starting from a fresh protocol object, appending the chunks in order
    and draining [popData] after each yields exactly the N frames, in
    order, and leaves exactly the partial bytes buffered.  Delivering the
    same chunks to [dataReceived] has the effect of [handleData] on the N
    frames in order: if none of these calls raises, every call of
    [dataReceived] returns and the partial bytes are what stays buffered;
    otherwise the first exception is the one that escapes. *)
Theorem framing_composition (chunks frames : list bytes) (part : bytes)
    (fuel : nat) (w : World) :
  Forall valid_frame frames ->
  strictly_partial part ->
  concat chunks = concat frames ++ part ->
  (length (concat chunks) <= fuel)%nat ->
  feed fuel chunks w SmscServer_init
  = Returns frames w {| datastream := part |}
  /\ match handleAll frames w SmscServer_init with
     | Returns _ w' _ =>
         deliver fuel chunks w SmscServer_init
         = Returns tt w' {| datastream := part |}
     | Raises e w' _ =>
         exists self', deliver fuel chunks w SmscServer_init = Raises e w' self'
     | OutOfFuel => False
     end.
Proof.
  intros Hvalid Hpart Hstream Hfuel. split.
  - by apply (feed_stream part chunks Hpart).
  - by apply (deliver_stream part chunks Hpart).
Qed.

(** ** A length field of zero *)

Lemma extractFrame_None (buf rest : bytes) :
  extractFrame buf = (None, rest) -> rest = buf.
Proof.
  unfold extractFrame.
  destruct (N.of_nat (length buf) <? 16); [congruence |].
  destruct (N.of_nat (length buf) <? be_uint (take 4 buf)); congruence.
Qed.







(** ** Further properties of the command handlers *)

Lemma dispatch_failed_status (p : pdu) (w : World) (self : SmscServer) :
  command_status (header p) <> "ESME_ROK" ->
  dispatch p w self = Returns tt w self.
Proof.
  intros Hst. destruct (handler_failed_status p w self Hst) as (Hb & Hs & He).
  destruct (decide (command_id (header p) = "bind_transceiver")) as [E | N1].
  { by rewrite dispatch_bind, Hb. }
  destruct (decide (command_id (header p) = "submit_sm")) as [E | N2].
  { by rewrite dispatch_submit, Hs. }
  destruct (decide (command_id (header p) = "enquire_link")) as [E | N3].
  { by rewrite dispatch_enquire, He. }
  by apply dispatch_other.
Qed.

Lemma handle_bind_transceiver_raises (p : pdu) (w : World) (self : SmscServer) :
  command_status (header p) = "ESME_ROK" ->
  (body p = None ->
   handle_bind_transceiver p w self = Raises (KeyError "body") w self)
  /\ (forall b,
        body p = Some b -> mandatory_parameters b = None ->
        handle_bind_transceiver p w self
        = Raises (KeyError "mandatory_parameters") w self)
  /\ (forall b params,
        body p = Some b -> mandatory_parameters b = Some params ->
        params !! "system_id" = None ->
        handle_bind_transceiver p w self = Raises (KeyError "system_id") w self).
Proof.
  intros Hst. unfold handle_bind_transceiver. rewrite Hst. cbn.
  split; [| split].
  - by intros ->.
  - intros b -> Hmp. cbn. unfold mbind, M_bind, bind. cbn. by rewrite Hmp.
  - intros b params -> Hmp Hi. cbn. unfold mbind, M_bind, bind. cbn.
    rewrite Hmp. cbn. by rewrite Hi.
Qed.

(** A link-check with success status, when the codec can decode the
    acknowledgment it encoded (which [sendPDU] does before it writes), is
    answered by exactly one PDU, the acknowledgment built from its
    sequence number; nothing is drawn and the protocol object is
    unchanged.  When the codec raises on the encoded acknowledgment, that
    exception escapes and nothing is written. *)
Theorem enquire_link_is_acknowledged (p : pdu) (w : World) (self : SmscServer) :
  successful "enquire_link" p ->
  (loggable (EnquireLinkResp (sequence_number (header p))) ->
   dispatch p w self
   = Returns tt
       {| uuid4_calls := uuid4_calls w;
          now_calls := now_calls w;
          written :=
            written w ++ [get_bin (EnquireLinkResp (sequence_number (header p)))] |}
       self)
  /\ (forall e,
        unpack_pdu (get_bin (EnquireLinkResp (sequence_number (header p)))) = inl e ->
        dispatch p w self = Raises e w self).
Proof.
  intros [Hid Hst]. rewrite dispatch_enquire by done. split.
  - intros Hlog. rewrite handle_enquire_link_ok by done.
    unfold after. cbn. by rewrite !Nat.add_0_r.
  - intros e E. by rewrite handle_enquire_link_outcome, sendPDU_outcome, E.
Qed.

(** A bind with success status whose decoded form lacks the body, the
    mandatory parameters or the [system_id] raises [KeyError] for the
    first key that is missing, before anything is written. *)
Theorem bind_without_identity_raises (p : pdu) (w : World) (self : SmscServer) :
  successful "bind_transceiver" p ->
  (body p = None -> dispatch p w self = Raises (KeyError "body") w self)
  /\ (forall b,
        body p = Some b -> mandatory_parameters b = None ->
        dispatch p w self = Raises (KeyError "mandatory_parameters") w self)
  /\ (forall b params,
        body p = Some b -> mandatory_parameters b = Some params ->
        params !! "system_id" = None ->
        dispatch p w self = Raises (KeyError "system_id") w self).
Proof.
  intros [Hid Hst]. rewrite dispatch_bind by done.
  destruct (handle_bind_transceiver_raises p w self Hst) as (H1 & H2 & H3).
  split; [| split].
  - intros Hb. by rewrite H1.
  - intros b Hb Hmp. by rewrite (H2 b).
  - intros b params Hb Hmp Hi. by rewrite (H3 b params).
Qed.

(** Dispatch always ends and never touches the protocol object.  Either
    it returns, having appended at most two PDUs to what was written, or
    it raises - [KeyError] from a bind, or the exception of the codec
    from [sendPDU] - having appended at most one.  In both cases the
    outcome does not depend on the protocol object. *)
Theorem dispatch_writes_at_most_two (p : pdu) (w : World) :
  exists out u n,
    ((length out <= 2)%nat
     /\ forall self, dispatch p w self = Returns tt (after w u n out) self)
    \/ ((length out <= 1)%nat
        /\ exists e,
             forall self, dispatch p w self = Raises e (after w u n out) self).
Proof.
  assert (Hsend : forall q,
             (forall self, sendPDU q w self = Returns tt (after w 0 0 [q]) self)
             \/ exists e, forall self, sendPDU q w self = Raises e (after w 0 0 []) self).
  { intros q. destruct (unpack_pdu (get_bin q)) as [e | decoded] eqn:E.
    - right. exists e. intros self. by rewrite sendPDU_outcome, E, after_0.
    - left. intros self. by rewrite sendPDU_outcome, E. }
  destruct (decide (command_status (header p) = "ESME_ROK")) as [Hst | Hst].
  2:{ exists [], 0%nat, 0%nat. left. split; [cbn; lia |]. intros self.
      rewrite after_0. by apply dispatch_failed_status. }
  destruct (decide (command_id (header p) = "bind_transceiver")) as [E | N1].
  { destruct (body p) as [b |] eqn:Hb;
      [destruct (mandatory_parameters b) as [params |] eqn:Hmp;
       [destruct (params !! "system_id") as [i |] eqn:Hi |] |].
    - destruct (Hsend (BindTransceiverResp (sequence_number (header p)) i))
        as [Hok | [e He]].
      + eexists [_], 0%nat, 0%nat. left. split; [cbn; lia |]. intros self.
        rewrite dispatch_bind by done.
        by rewrite (handle_bind_transceiver_outcome p b params i), Hok.
      + exists [], 0%nat, 0%nat. right. split; [cbn; lia |]. exists e.
        intros self. rewrite dispatch_bind by done.
        by rewrite (handle_bind_transceiver_outcome p b params i), He.
    - exists [], 0%nat, 0%nat. right. split; [cbn; lia |]. eexists.
      intros self. rewrite dispatch_bind, after_0 by done.
      destruct (handle_bind_transceiver_raises p w self Hst) as (_ & _ & H3).
      by rewrite (H3 b params).
    - exists [], 0%nat, 0%nat. right. split; [cbn; lia |]. eexists.
      intros self. rewrite dispatch_bind, after_0 by done.
      destruct (handle_bind_transceiver_raises p w self Hst) as (_ & H2 & _).
      by rewrite (H2 b).
    - exists [], 0%nat, 0%nat. right. split; [cbn; lia |]. eexists.
      intros self. rewrite dispatch_bind, after_0 by done.
      destruct (handle_bind_transceiver_raises p w self Hst) as (H1 & _ & _).
      by rewrite H1. }
  destruct (decide (command_id (header p) = "submit_sm")) as [E | N2].
  { pose proof (fun self => handle_submit_sm_outcome p w self Hst) as Hout.
    unfold submit_output in Hout.
    destruct (unpack_pdu (get_bin (SubmitSMResp _ _))) as [e | d1].
    { exists [], 1%nat, 0%nat. right. split; [cbn; lia |]. exists e.
      intros self. rewrite dispatch_submit by done. by rewrite Hout. }
    destruct (unpack_pdu (get_bin (DeliverSM _ _))) as [e | d2].
    { eexists [_], 1%nat, 2%nat. right. split; [cbn; lia |]. exists e.
      intros self. rewrite dispatch_submit by done. by rewrite Hout. }
    eexists [_; _], 1%nat, 2%nat. left. split; [cbn; lia |].
    intros self. rewrite dispatch_submit by done. by rewrite Hout. }
  destruct (decide (command_id (header p) = "enquire_link")) as [E | N3].
  { destruct (Hsend (EnquireLinkResp (sequence_number (header p))))
      as [Hok | [e He]].
    - eexists [_], 0%nat, 0%nat. left. split; [cbn; lia |]. intros self.
      rewrite dispatch_enquire by done.
      by rewrite handle_enquire_link_outcome, Hok.
    - exists [], 0%nat, 0%nat. right. split; [cbn; lia |]. exists e.
      intros self. rewrite dispatch_enquire by done.
      by rewrite handle_enquire_link_outcome, He. }
  exists [], 0%nat, 0%nat. left. split; [cbn; lia |]. intros self.
  rewrite after_0. by apply dispatch_other.
Qed.

(** ** Further properties of the receive loop *)

Lemma concat_singletons (data : bytes) :
  concat ((fun b => [b]) <$> data) = data.
Proof. induction data as [| b data IH]; [done | cbn; by rewrite IH]. Qed.

Lemma extractFrame_nil : extractFrame [] = (None, []).
Proof. reflexivity. Qed.

Lemma valid_frame_nonempty (frame : bytes) : valid_frame frame -> frame <> [].
Proof. intros [H16 _] ->. cbn in H16. lia. Qed.

Lemma loop_returns_handles (fuel : nat) :
  forall buf w w' self',
    popData_then_loop fuel w {| datastream := buf |} = Returns tt w' self' ->
    exists frames,
      drains buf frames (datastream self')
      /\ forall self0, handleAll frames w self0 = Returns tt w' self0.
Proof.
  induction fuel as [| fuel IH]; intros buf w w' self';
    destruct (extractFrame buf) as [[frame |] rest] eqn:E.
  - by rewrite (popData_then_loop_Some_0 _ _ _ _ E).
  - apply extractFrame_None in E as Hrest. subst rest.
    rewrite popData_then_loop_None by done. intros [= <- <-].
    exists []. split; [by constructor | done].
  - rewrite (popData_then_loop_Some _ _ _ _ _ E).
    destruct (oblivious_handleData frame w) as [([] & w1 & Hh) | (e & w1 & Hh)];
      rewrite Hh; [| done].
    intros Hloop. apply IH in Hloop as (frames & Hdrains & Hall).
    exists (frame :: frames). split; [by econstructor |].
    intros self0. cbn [handleAll]. unfold mbind, M_bind, bind.
    by rewrite Hh, Hall.
  - apply extractFrame_None in E as Hrest. subst rest.
    rewrite popData_then_loop_None by done. intros [= <- <-].
    exists []. split; [by constructor | done].
Qed.

Lemma handleAll_decoded (frames : list bytes) (commands : list pdu) :
  Forall2 (fun frame p => unpack_pdu frame = inr p) frames commands ->
  forall w self, handleAll frames w self = dispatchAll commands w self.
Proof.
  induction 1 as [| frame p frames commands Hp _ IH]; intros w self; [done |].
  cbn [handleAll dispatchAll]. unfold mbind, M_bind, bind, handleData.
  rewrite Hp. destruct (dispatch p w self) as [[] w1 self1 | |]; [| done | done].
  apply IH.
Qed.

(** A frame that the codec cannot decode is lost.  When the buffer, with
    the received bytes appended, starts with a complete frame on which
    [unpack_pdu] raises, [dataReceived] lets that exception escape; the
    frame has left the buffer, the bytes after it stay buffered without
    being looked at, and nothing has been written. *)
Theorem undecodable_frame_is_dropped (fuel : nat) (data frame rest : bytes)
    (e : exn) (w : World) (self : SmscServer) :
  popData w {| datastream := datastream self ++ data |}
  = Returns (Some frame) w {| datastream := rest |} ->
  unpack_pdu frame = inl e ->
  dataReceived (S fuel) data w self = Raises e w {| datastream := rest |}.
Proof.
  intros Hpop Hdecode. destruct self as [buf]. cbn [datastream] in Hpop.
  rewrite dataReceived_unfold.
  unfold popData_then_loop, mbind, M_bind, bind. rewrite Hpop.
  cbn [dataReceived_while]. unfold mbind, M_bind, bind, handleData.
  by rewrite Hdecode.
Qed.

(** A valid frame delivered one byte per call.  After each of the calls
    before the last the bytes received so far are buffered and nothing
    has been handled; the last call hands the frame to [handleData] and
    leaves the buffer empty. *)
Theorem frame_delivered_byte_by_byte (frame : bytes) (fuel : nat) (w : World) :
  valid_frame frame ->
  (length frame <= fuel)%nat ->
  (forall k,
      (k < length frame)%nat ->
      deliver fuel ((fun b => [b]) <$> take k frame) w SmscServer_init
      = Returns tt w {| datastream := take k frame |})
  /\ match handleData frame w SmscServer_init with
     | Returns _ w' _ =>
         deliver fuel ((fun b => [b]) <$> frame) w SmscServer_init
         = Returns tt w' {| datastream := [] |}
     | Raises e w' _ =>
         exists self',
           deliver fuel ((fun b => [b]) <$> frame) w SmscServer_init
           = Raises e w' self'
     | OutOfFuel => False
     end.
Proof.
  intros Hvalid Hfuel. pose proof (valid_frame_nonempty _ Hvalid) as Hne. split.
  - intros k Hk.
    assert (strictly_partial (take k frame)) as Hpart.
    { exists frame, (drop k frame). rewrite take_drop.
      split; [done | split; [done |]]. intros Hnil. apply (f_equal length) in Hnil.
      rewrite length_drop in Hnil. cbn in Hnil. lia. }
    apply (deliver_stream (take k frame) _ Hpart [] [] fuel w SmscServer_init).
    + constructor.
    + by rewrite concat_singletons.
    + apply extractFrame_nil.
    + rewrite concat_singletons, length_take. cbn. lia.
  - assert (strictly_partial []) as Hpart by (by exists frame, frame).
    pose proof (deliver_stream [] ((fun b => [b]) <$> frame) Hpart [frame] []
                  fuel w SmscServer_init) as Hdeliver.
    rewrite concat_singletons in Hdeliver.
    assert (Forall valid_frame [frame]) as H1 by (by constructor).
    assert ([] ++ frame = concat [frame] ++ []) as H2
      by (by cbn; rewrite !app_nil_r).
    assert (length ([] : bytes) + length frame <= fuel)%nat as H3 by (cbn; lia).
    specialize (Hdeliver H1 H2 extractFrame_nil H3).
    cbn [handleAll] in Hdeliver. unfold mbind, M_bind, bind in Hdeliver.
    by destruct (handleData frame w SmscServer_init) as [[] w1 self1 | e w1 self1 |].
Qed.

(** No byte is lost or reordered, whatever the input.  Whenever a call of
    [dataReceived] returns, the bytes that were buffered followed by the
    bytes received are the frames it handed to [handleData], in order,
    followed by the bytes it left buffered; the buffer it leaves holds no
    complete frame; and its effect on the world is that of [handleData]
    on those frames. *)
Theorem dataReceived_conserves_bytes (fuel : nat) (data : bytes)
    (w w' : World) (self self' : SmscServer) :
  dataReceived fuel data w self = Returns tt w' self' ->
  exists frames,
    datastream self ++ data = concat frames ++ datastream self'
    /\ popData w' self' = Returns None w' self'
    /\ handleAll frames w self = Returns tt w' self.
Proof.
  destruct self as [buf]. rewrite dataReceived_unfold.
  intros (frames & Hdrains & Hall)%loop_returns_handles.
  exists frames. cbn [datastream]. split; [by apply drains_concat |].
  split; [| done]. destruct self' as [final]. cbn [datastream] in *.
  apply popData_None. by eapply drains_final.
Qed.


(** Reassembly composed with dispatch.  When the chunks carry N valid
    frames and a strictly partial one, and the codec decodes the frames
    to the commands [commands], delivering the chunks has the effect of
    dispatching the commands in order: it returns with the partial bytes
    buffered when no dispatch raises, and otherwise lets the first
    exception escape. *)
Theorem stream_is_dispatched_in_order (chunks frames : list bytes)
    (commands : list pdu) (part : bytes) (fuel : nat) (w : World) :
  Forall valid_frame frames ->
  strictly_partial part ->
  concat chunks = concat frames ++ part ->
  (length (concat chunks) <= fuel)%nat ->
  Forall2 (fun frame p => unpack_pdu frame = inr p) frames commands ->
  match dispatchAll commands w SmscServer_init with
  | Returns _ w' _ =>
      deliver fuel chunks w SmscServer_init
      = Returns tt w' {| datastream := part |}
  | Raises e w' _ =>
      exists self', deliver fuel chunks w SmscServer_init = Raises e w' self'
  | OutOfFuel => False
  end.
Proof.
  intros Hvalid Hpart Hstream Hfuel Hdecoded.
  rewrite <- (handleAll_decoded frames commands Hdecoded).
  by apply (deliver_stream part chunks Hpart).
Qed.

End Server.

(** ** Metrics: registration *)

Module MetricsFacts.

Import Metrics.

Section Facts.

Context `{Runtime}.

Lemma get_metric_Some (h : Heap) (self : nat) (m : Metric) :
  metrics h !! self = Some m -> get_metric self h = Ok m h.
Proof. intros E. unfold get_metric. by rewrite E. Qed.

Lemma get_manager_Some (h : Heap) (self : nat) (g : MetricManager) :
  managers h !! self = Some g -> get_manager self h = Ok g h.
Proof. intros E. unfold get_manager. by rewrite E. Qed.

Lemma with_metric_same (h : Heap) (self : nat) (m : Metric) :
  metrics h !! self = Some m -> with_metric h self m = h.
Proof.
  intros E. destruct h as [ms gs t p]. unfold with_metric. cbn in *.
  by rewrite insert_id.
Qed.

Lemma with_metric_twice (h : Heap) (self : nat) (m1 m2 : Metric) :
  with_metric (with_metric h self m1) self m2 = with_metric h self m2.
Proof. unfold with_metric. cbn. by rewrite insert_insert_eq. Qed.

Lemma lookup_with_metric (h : Heap) (self : nat) (m : Metric) :
  metrics (with_metric h self m) !! self = Some m.
Proof. cbn. apply lookup_insert_eq. Qed.

Lemma lookup_with_metric_ne (h : Heap) (self other : nat) (m : Metric) :
  self <> other ->
  metrics (with_metric h self m) !! other = metrics h !! other.
Proof. intros Hne. cbn. by apply lookup_insert_ne. Qed.

Lemma manage_unnamed (h : Heap) (self : nat) (m : Metric) (pre : string) :
  metrics h !! self = Some m -> name m = None ->
  manage self pre h = Ok tt (with_metric h self (with_name m (pre +:+ _suffix m))).
Proof.
  intros E Hname. unfold manage, mbind, Py_bind, py_bind.
  by rewrite (get_metric_Some _ _ _ E), Hname.
Qed.

Lemma manage_named (h : Heap) (self : nat) (m : Metric) (pre n : string) :
  metrics h !! self = Some m -> name m = Some n ->
  manage self pre h
  = Err (MetricRegistrationError
           ("Metric " +:+ pre +:+ _suffix m
              +:+ " already registered with a MetricManager.")) h.
Proof.
  intros E Hname. unfold manage, mbind, Py_bind, py_bind.
  by rewrite (get_metric_Some _ _ _ E), Hname.
Qed.

Lemma register_unregistered (h : Heap) (self metric : nat)
    (g : MetricManager) (m : Metric) :
  managers h !! self = Some g ->
  metrics h !! metric = Some m ->
  name m = None ->
  register self metric h
  = Ok metric
      (with_manager
         (with_metric h metric (with_name m (prefix g +:+ _suffix m)))
         self (listing g metric)).
Proof.
  intros Hg Hm Hname. unfold register, mbind, Py_bind, py_bind.
  rewrite (get_manager_Some _ _ _ Hg), (manage_unnamed _ _ _ _ Hm Hname).
  by rewrite (get_manager_Some _ self g).
Qed.

(** Registering a metric that already has a name - one registered
    before, with this manager or with another - raises
    [MetricRegistrationError] with the message built from the manager's
    prefix and the metric's suffix, and changes nothing: the metric keeps
    its name and the manager's list is as it was. *)
Theorem register_registered_raises (h : Heap) (self metric : nat)
    (g : MetricManager) (m : Metric) (n : string) :
  managers h !! self = Some g ->
  metrics h !! metric = Some m ->
  name m = Some n ->
  register self metric h
  = Err (MetricRegistrationError
           ("Metric " +:+ prefix g +:+ _suffix m
              +:+ " already registered with a MetricManager.")) h.
Proof.
  intros Hg Hm Hname. unfold register, mbind, Py_bind, py_bind.
  by rewrite (get_manager_Some _ _ _ Hg), (manage_named _ _ _ _ n Hm Hname).
Qed.

(** A metric of any class, created and registered: [register] returns
    the reference of the new object, the object has the name made of the
    manager's prefix and its suffix, its other attributes are those its
    constructor set, and it is the last entry of the manager's list. *)
Theorem new_metric_is_registered (h : Heap) (self : nat) (g : MetricManager)
    (suffix : string) (a : attributes) :
  managers h !! self = Some g ->
  exists metric h',
    (metric ← new_metric (Metric_init suffix a); register self metric) h
    = Ok metric h'
    /\ metrics h !! metric = None
    /\ metrics h' !! metric
       = Some {| name := Some (prefix g +:+ suffix); _suffix := suffix;
                 attrs := a |}
    /\ managers h' !! self = Some (listing g metric)
    /\ (forall other, other <> metric -> metrics h' !! other = metrics h !! other)
    /\ time_calls h' = time_calls h
    /\ published h' = published h.
Proof.
  intros Hg. set (metric := fresh (dom (metrics h))).
  assert (metrics h !! metric = None) as Hfresh
    by apply not_elem_of_dom, is_fresh.
  eexists metric, _. split.
  - unfold mbind, Py_bind, py_bind, new_metric. fold metric.
    apply (register_unregistered _ self metric g (Metric_init suffix a));
      [done | apply lookup_insert_eq | done].
  - split; [done |]. cbn. split; [| split; [| split]].
    + by rewrite insert_insert_eq, lookup_insert_eq.
    + apply lookup_insert_eq.
    + intros other Hne. by rewrite !lookup_insert_ne.
    + done.
Qed.

Lemma listed_after_register (h : Heap) (self metric : nat)
    (g : MetricManager) (m' : Metric) (other listing_manager : nat) :
  managers h !! self = Some g ->
  listed (with_manager (with_metric h metric m') self (listing g metric))
    other listing_manager ->
  (other = metric /\ listing_manager = self) \/ listed h other listing_manager.
Proof.
  intros Hg (g' & Hg' & Hin). cbn in Hg'.
  destruct (decide (listing_manager = self)) as [-> | Hne].
  - rewrite lookup_insert_eq in Hg'. injection Hg' as <-. cbn in Hin.
    apply elem_of_app in Hin as [Hin | Hin%list_elem_of_singleton].
    + right. by exists g.
    + by left.
  - rewrite lookup_insert_ne in Hg' by done. right. by exists g'.
Qed.

(** A call of [register] that returns keeps every metric with one
    manager. *)
Lemma register_keeps_one_manager_each (h h' : Heap) (self metric r : nat) :
  one_manager_each h ->
  register self metric h = Ok r h' ->
  one_manager_each h'.
Proof.
  intros [Honce Hone Hnamed] Hreg.
  destruct (managers h !! self) as [g |] eqn:Hg;
    [| by unfold register, mbind, Py_bind, py_bind, get_manager in Hreg;
          rewrite Hg in Hreg].
  destruct (metrics h !! metric) as [m |] eqn:Hm.
  2:{ unfold register, mbind, Py_bind, py_bind, manage in Hreg.
      rewrite (get_manager_Some _ _ _ Hg) in Hreg.
      unfold mbind, Py_bind, py_bind, get_metric in Hreg.
      by rewrite Hm in Hreg. }
  destruct (name m) as [n |] eqn:Hname.
  { unfold register, mbind, Py_bind, py_bind in Hreg.
    by rewrite (get_manager_Some _ _ _ Hg),
      (manage_named _ _ _ _ n Hm Hname) in Hreg. }
  rewrite (register_unregistered h self metric g m) in Hreg by done.
  injection Hreg as <- <-.
  assert (forall self0, ~ listed h metric self0) as Hunlisted.
  { intros self0 (g0 & Hg0 & Hin).
    destruct (Hnamed metric self0 g0 Hg0 Hin) as (m0 & Hm0 & Hn0). congruence. }
  split.
  - intros self0 g0 Hg0. cbn in Hg0.
    destruct (decide (self0 = self)) as [-> | Hne].
    + rewrite lookup_insert_eq in Hg0. injection Hg0 as <-. cbn.
      apply NoDup_app. split; [by eapply Honce |]. split; [| apply NoDup_singleton].
      intros x Hx ->%list_elem_of_singleton. apply (Hunlisted self). by exists g.
    + rewrite lookup_insert_ne in Hg0 by done. by eapply Honce.
  - intros other self1 self2 H1 H2.
    apply (listed_after_register h self metric g) in H1; [| done].
    apply (listed_after_register h self metric g) in H2; [| done].
    destruct H1 as [[-> ->] | H1], H2 as [[E2 ->] | H2]; try done.
    + by destruct (Hunlisted self2).
    + subst other. by destruct (Hunlisted self1).
    + by eapply Hone.
  - intros other self0 g0 Hg0 Hin.
    assert (listed (with_manager
                      (with_metric h metric (with_name m (prefix g +:+ _suffix m)))
                      self (listing g metric)) other self0) as Hl
      by (by exists g0).
    apply (listed_after_register h self metric g) in Hl; [| done].
    destruct Hl as [[-> ->] | (g1 & Hg1 & Hin1)].
    + cbn in Hg0. rewrite lookup_insert_eq in Hg0. injection Hg0 as <-.
      eexists. split; [apply lookup_with_metric | done].
    + assert (other <> metric) as Hne.
      { intros ->. apply (Hunlisted self0). by exists g1. }
      assert (prefix g0 = prefix g1) as ->.
      { cbn in Hg0. destruct (decide (self0 = self)) as [-> | Hs].
        - rewrite lookup_insert_eq in Hg0. injection Hg0 as <-. cbn. congruence.
        - rewrite lookup_insert_ne in Hg0 by done. congruence. }
      destruct (Hnamed other self0 g1 Hg1 Hin1) as (m1 & Hm1 & Hn1).
      exists m1. split; [| done].
      cbn. by rewrite lookup_insert_ne.
Qed.

(** ** Metrics: counting, summing, timing *)

Lemma put_metric_eq (h : Heap) (self : nat) (m : Metric) :
  put_metric self m h = Ok tt (with_metric h self m).
Proof. done. Qed.

Lemma with_attrs_same (m : Metric) (a : attributes) :
  attrs m = a -> with_attrs m a = m.
Proof. intros <-. by destruct m. Qed.

Lemma inc_count (h : Heap) (self : nat) (m : Metric) (c : Z) :
  metrics h !! self = Some m -> attrs m = OfCount c ->
  inc self h = Ok tt (with_metric h self (with_attrs m (OfCount (c + 1)))).
Proof.
  intros E Ha. unfold inc, mbind, Py_bind, py_bind.
  by rewrite (get_metric_Some _ _ _ E), Ha.
Qed.

Lemma times_inc (n : nat) :
  forall (h : Heap) (self : nat) (m : Metric) (c : Z),
    metrics h !! self = Some m -> attrs m = OfCount c ->
    times n (inc self) h
    = Ok tt (with_metric h self (with_attrs m (OfCount (c + Z.of_nat n)))).
Proof.
  induction n as [| n IH]; intros h self m c E Ha.
  - change (Z.of_nat 0) with 0%Z.
    by rewrite Z.add_0_r, with_attrs_same, with_metric_same.
  - cbn [times]. unfold mbind, Py_bind, py_bind.
    rewrite (inc_count _ _ _ _ E Ha).
    rewrite (IH _ self (with_attrs m (OfCount (c + 1))) (c + 1)%Z);
      [| apply lookup_with_metric | done].
    rewrite with_metric_twice. do 3 f_equal. unfold with_attrs. cbn.
    f_equal. lia.
Qed.

Lemma poll_polled (h : Heap) (self : nat) (m : Metric)
    (r : value float * Metric) :
  metrics h !! self = Some m -> polled m = Some r ->
  poll self h = Ok r.1 (with_metric h self r.2).
Proof.
  intros E Hp. unfold poll, mbind, Py_bind, py_bind.
  rewrite (get_metric_Some _ _ _ E). unfold polled in Hp.
  destruct (attrs m) eqn:Ha; try discriminate; injection Hp as <-; cbn;
    try done.
  by rewrite with_metric_same.
Qed.

Lemma set_simple_value (h : Heap) (self : nat) (m : Metric)
    (old v : value float) :
  metrics h !! self = Some m -> attrs m = OfSimpleValue old ->
  set self v h = Ok tt (with_metric h self (with_attrs m (OfSimpleValue v))).
Proof.
  intros E Ha. unfold set, mbind, Py_bind, py_bind.
  by rewrite (get_metric_Some _ _ _ E), Ha.
Qed.

(** A simple value keeps the last value set and polling does not reset
    it: after two calls of [set], [poll] returns the second value, and so
    does a second [poll] right after it; the first value set has no
    effect. *)
Theorem simple_value_keeps_the_last_set (h : Heap) (self : nat) (m : Metric)
    (old v1 v2 : value float) :
  metrics h !! self = Some m ->
  attrs m = OfSimpleValue old ->
  (set self v1;; set self v2;; first ← poll self; second ← poll self;
   mret (first, second)) h
  = Ok (v2, v2) (with_metric h self (with_attrs m (OfSimpleValue v2))).
Proof.
  intros E Ha. unfold mbind, Py_bind, py_bind.
  rewrite (set_simple_value h self m old v1 E Ha).
  rewrite (set_simple_value _ self (with_attrs m (OfSimpleValue v1)) v1 v2);
    [| apply lookup_with_metric | done].
  rewrite with_metric_twice.
  rewrite (poll_polled _ self (with_attrs m (OfSimpleValue v2))
             (v2, with_attrs m (OfSimpleValue v2)));
    [| apply lookup_with_metric | done].
  cbn [fst snd]. rewrite with_metric_twice.
  rewrite (poll_polled _ self (with_attrs m (OfSimpleValue v2))
             (v2, with_attrs m (OfSimpleValue v2)));
    [| apply lookup_with_metric | done].
  cbn [fst snd]. by rewrite with_metric_twice.
Qed.

(** A counter reports the increments since it was last polled and starts
    again from zero: after [n] calls of [inc] on a counter that stood at
    [c], [poll] returns [c + n], and a second [poll] right after it
    returns 0. *)
Theorem count_polls_its_increments (h : Heap) (self : nat) (m : Metric)
    (c : Z) (n : nat) :
  metrics h !! self = Some m ->
  attrs m = OfCount c ->
  (times n (inc self);; first ← poll self; second ← poll self;
   mret (first, second)) h
  = Ok (IntValue (c + Z.of_nat n), IntValue 0)
      (with_metric h self (with_attrs m (OfCount 0))).
Proof.
  intros E Ha. unfold mbind, Py_bind, py_bind.
  rewrite (times_inc n h self m c E Ha).
  rewrite (poll_polled _ self (with_attrs m (OfCount (c + Z.of_nat n)))
             (IntValue (c + Z.of_nat n), with_attrs m (OfCount 0)));
    [| apply lookup_with_metric | done].
  cbn [fst snd]. rewrite with_metric_twice.
  rewrite (poll_polled _ self (with_attrs m (OfCount 0))
             (IntValue 0, with_attrs m (OfCount 0)));
    [| apply lookup_with_metric | done].
  cbn [fst snd]. by rewrite with_metric_twice.
Qed.

Lemma add_sum (h : Heap) (self : nat) (m : Metric) (v : float) (c : Z)
    (avg : bool) (amount : value float) :
  metrics h !! self = Some m -> attrs m = OfSum v c avg ->
  add self amount h
  = Ok tt (with_metric h self (with_attrs m (OfSum (plus v amount) (c + 1) avg))).
Proof.
  intros E Ha. unfold add, mbind, Py_bind, py_bind.
  by rewrite (get_metric_Some _ _ _ E), Ha.
Qed.

Lemma add_all_sum (amounts : list (value float)) :
  forall (h : Heap) (self : nat) (m : Metric) (v : float) (c : Z) (avg : bool),
    metrics h !! self = Some m -> attrs m = OfSum v c avg ->
    add_all self amounts h
    = Ok tt
        (with_metric h self
           (with_attrs m
              (OfSum (foldl plus v amounts) (c + Z.of_nat (length amounts)) avg))).
Proof.
  induction amounts as [| amount amounts IH]; intros h self m v c avg E Ha.
  - change (Z.of_nat (length [])) with 0%Z. cbn [foldl].
    by rewrite Z.add_0_r, with_attrs_same, with_metric_same.
  - cbn [add_all]. unfold mbind, Py_bind, py_bind.
    rewrite (add_sum _ _ _ _ _ _ _ E Ha).
    rewrite (IH _ self (with_attrs m (OfSum (plus v amount) (c + 1) avg))
               (plus v amount) (c + 1)%Z avg);
      [| apply lookup_with_metric | done].
    rewrite with_metric_twice. do 3 f_equal. unfold with_attrs. cbn.
    f_equal. lia.
Qed.

(** A sum reports what was added since it was last polled and starts
    again from 0.0.  After the amounts of a list are added to a sum that
    held [v] from [c] additions, [poll] returns, without averaging, the
    amounts added to [v] from left to right, and with averaging that
    total divided by the number of additions - or 0.0 when there were
    none.  A second [poll] right after it returns 0.0 in both modes:
    polling an averaging sum without samples divides by nothing. *)
Theorem sum_polls_what_was_added (h : Heap) (self : nat) (m : Metric)
    (v : float) (c : Z) (avg : bool) (amounts : list (value float)) :
  metrics h !! self = Some m ->
  attrs m = OfSum v c avg ->
  (add_all self amounts;; first ← poll self; second ← poll self;
   mret (first, second)) h
  = Ok (FloatValue
          (let total := foldl plus v amounts in
           let count := (c + Z.of_nat (length amounts))%Z in
           if avg then
             if decide (count = 0%Z) then float_zero
             else float_div total (float_of_int count)
           else total),
        FloatValue float_zero)
      (with_metric h self (with_attrs m (OfSum float_zero 0 avg))).
Proof.
  intros E Ha. unfold mbind, Py_bind, py_bind.
  rewrite (add_all_sum amounts h self m v c avg E Ha).
  rewrite (poll_polled _ self
             (with_attrs m
                (OfSum (foldl plus v amounts) (c + Z.of_nat (length amounts)) avg))
             (FloatValue (_func avg (foldl plus v amounts)
                            (c + Z.of_nat (length amounts))),
              with_attrs m (OfSum float_zero 0 avg)));
    [| apply lookup_with_metric | done].
  cbn [fst snd]. rewrite with_metric_twice.
  rewrite (poll_polled _ self (with_attrs m (OfSum float_zero 0 avg))
             (FloatValue (_func avg float_zero 0),
              with_attrs m (OfSum float_zero 0 avg)));
    [| apply lookup_with_metric | done].
  cbn [fst snd]. rewrite with_metric_twice. unfold mret, Py_ret, py_ret.
  do 3 f_equal. by destruct avg.
Qed.

Lemma start_stopped (h : Heap) (self : nat) (m : Metric) (v : float) (c : Z)
    (avg : bool) :
  metrics h !! self = Some m -> attrs m = OfTimer v c avg None ->
  start self h
  = Ok tt
      (with_metric (tick h) self
         (with_attrs m (OfTimer v c avg (Some (time_time (time_calls h)))))).
Proof.
  intros E Ha. unfold start, mbind, Py_bind, py_bind.
  by rewrite (get_metric_Some _ _ _ E), Ha.
Qed.

Lemma stop_started (h : Heap) (self : nat) (m : Metric) (v : float) (c : Z)
    (avg : bool) (started : float) :
  metrics h !! self = Some m -> attrs m = OfTimer v c avg (Some started) ->
  stop self h
  = Ok tt
      (with_metric (tick h) self
         (with_attrs m
            (OfTimer (float_add v (float_sub (time_time (time_calls h)) started))
               (c + 1) avg None))).
Proof.
  intros E Ha. unfold stop, mbind, Py_bind, py_bind.
  rewrite (get_metric_Some _ _ _ E), Ha. cbn.
  unfold add, mbind, Py_bind, py_bind, get_metric. cbn.
  rewrite lookup_insert_eq. cbn. unfold with_metric, set_attrs, put_metric. cbn.
  by rewrite insert_insert_eq.
Qed.

(** Starting a timer that is running raises [TimerAlreadyStartedError]
    before the clock is read: of two calls of [start] on a stopped timer
    the first reads the clock once and records the time, and the second
    raises, naming the timer, and leaves the recorded time in place. *)
Theorem timer_started_twice_raises (h : Heap) (self : nat) (m : Metric)
    (v : float) (c : Z) (avg : bool) :
  metrics h !! self = Some m ->
  attrs m = OfTimer v c avg None ->
  (start self;; start self) h
  = Err (TimerAlreadyStartedError
           ("Attempt to start timer " +:+ str_of_name (name m)
              +:+ " that was already started"))
      (with_metric (tick h) self
         (with_attrs m (OfTimer v c avg (Some (time_time (time_calls h)))))).
Proof.
  intros E Ha. unfold mbind, Py_bind, py_bind.
  rewrite (start_stopped _ _ _ _ _ _ E Ha).
  unfold start, mbind, Py_bind, py_bind, get_metric. cbn.
  by rewrite lookup_insert_eq.
Qed.

(** Stopping a timer that is not running raises [TypeError]; the clock
    has been read by then, and nothing else has changed: no duration is
    added. *)
Theorem timer_stopped_unstarted_raises (h : Heap) (self : nat) (m : Metric)
    (v : float) (c : Z) (avg : bool) :
  metrics h !! self = Some m ->
  attrs m = OfTimer v c avg None ->
  stop self h = Err TypeError (tick h).
Proof.
  intros E Ha. unfold stop, mbind, Py_bind, py_bind.
  by rewrite (get_metric_Some _ _ _ E), Ha.
Qed.

(** A timer used as a context manager records the time its block took,
    whether the block returns or raises.  For a stopped timer and a block
    that leaves the timer alone, [with timer: block] reads the clock once
    before and once after the block, adds the difference of the two
    readings to the timer's sum, counts one more addition and leaves the
    timer stopped; it returns what the block returned, or raises what the
    block raised. *)
Theorem timer_times_its_block {A} (h : Heap) (self : nat) (m : Metric)
    (v : float) (c : Z) (avg : bool) (block : Py A) :
  metrics h !! self = Some m ->
  attrs m = OfTimer v c avg None ->
  let entered :=
    with_metric (tick h) self
      (with_attrs m (OfTimer v c avg (Some (time_time (time_calls h))))) in
  let timed (h2 : Heap) :=
    with_metric (tick h2) self
      (with_attrs m
         (OfTimer
            (float_add v
               (float_sub (time_time (time_calls h2)) (time_time (time_calls h))))
            (c + 1) avg None)) in
  match block entered with
  | Ok a h2 =>
      metrics h2 !! self = metrics entered !! self ->
      with_ self block h = Ok a (timed h2)
  | Err e h2 =>
      metrics h2 !! self = metrics entered !! self ->
      with_ self block h = Err e (timed h2)
  end.
Proof.
  intros E Ha entered timed.
  assert (with_ self block h = run_then_exit self block entered) as ->.
  { unfold with_, __enter__, mbind, Py_bind, py_bind.
    by rewrite (start_stopped _ _ _ _ _ _ E Ha). }
  unfold run_then_exit.
  destruct (block entered) as [a h2 | e h2]; intros Hkept;
    unfold entered in Hkept; rewrite lookup_with_metric in Hkept;
    unfold __exit__, mbind, Py_bind, py_bind;
    by rewrite (stop_started h2 self _ v c avg _ Hkept eq_refl).
Qed.

(** ** Metrics: publishing *)

Lemma time_eq (h : Heap) : time h = Ok (time_time (time_calls h)) (tick h).
Proof. done. Qed.

Lemma reset_all_cons (h : Heap) (self : nat) (m : Metric)
    (polls : list (nat * Metric)) :
  reset_all h ((self, m) :: polls) = reset_all (with_metric h self m) polls.
Proof. done. Qed.

Lemma reset_all_frame (polls : list (nat * Metric)) (h : Heap) :
  managers (reset_all h polls) = managers h
  /\ time_calls (reset_all h polls) = time_calls h
  /\ published (reset_all h polls) = published h.
Proof.
  revert h. induction polls as [| [self m] polls IH]; intros h; [done |].
  rewrite reset_all_cons. by destruct (IH (with_metric h self m)) as (-> & -> & ->).
Qed.

Lemma reset_all_tick (polls : list (nat * Metric)) (h : Heap) :
  metrics (reset_all (tick h) polls) = metrics (reset_all h polls).
Proof.
  revert h. induction polls as [| [self m] polls IH]; intros h; [done |].
  rewrite !reset_all_cons. apply (IH (with_metric h self m)).
Qed.

Lemma reset_all_other (polls : list (nat * Metric)) (h : Heap) (other : nat) :
  other ∉ polls.*1 ->
  metrics (reset_all h polls) !! other = metrics h !! other.
Proof.
  revert h. induction polls as [| [self m] polls IH]; intros h Hnot; [done |].
  rewrite reset_all_cons. cbn in Hnot.
  apply not_elem_of_cons in Hnot as [Hne Hnot].
  rewrite IH by done. by apply lookup_with_metric_ne.
Qed.

Lemma reset_all_tick_eq (polls : list (nat * Metric)) (h : Heap) :
  reset_all (tick h) polls
  = {| metrics := metrics (reset_all h polls);
       managers := managers h;
       time_calls := S (time_calls h);
       published := published h |}.
Proof.
  pose proof (reset_all_frame polls (tick h)) as (E1 & E2 & E3).
  pose proof (reset_all_tick polls h) as E0.
  destruct (reset_all (tick h) polls). cbn in *. by subst.
Qed.

Lemma reset_all_app (h : Heap) (polls1 polls2 : list (nat * Metric)) :
  reset_all h (polls1 ++ polls2) = reset_all (reset_all h polls1) polls2.
Proof. unfold reset_all. by rewrite foldl_app. Qed.

(** The loop over the first metrics of the list, when they are distinct
    and each can be polled. *)
Lemma publish_loop_app (now : float) (todo1 : list nat) :
  forall (ms : list Metric) (rs : list (value float * Metric))
         (todo2 : list nat) (msg : MetricMessage) (h : Heap),
    NoDup todo1 ->
    Forall2 (fun self m => metrics h !! self = Some m) todo1 ms ->
    Forall2 (fun m r => polled m = Some r) ms rs ->
    publish_loop now msg (todo1 ++ todo2) h
    = publish_loop now
        (foldl MetricMessage_append msg (datapoints now ms rs)) todo2
        (reset_all h (zip todo1 rs.*2)).
Proof.
  induction todo1 as [| self todo1 IH]; intros ms rs todo2 msg h Hnodup Hms Hrs.
  - apply Forall2_nil_inv_l in Hms as ->.
    by apply Forall2_nil_inv_l in Hrs as ->.
  - apply Forall2_cons_inv_l in Hms as (m & ms' & Hm & Hms & ->).
    apply Forall2_cons_inv_l in Hrs as (r & rs' & Hr & Hrs & ->).
    apply NoDup_cons in Hnodup as [Hnotin Hnodup].
    cbn [app publish_loop]. unfold mbind, Py_bind, py_bind.
    rewrite (get_metric_Some _ _ _ Hm), (poll_polled _ _ _ _ Hm Hr).
    rewrite (IH ms' rs'); [done | done | | done].
    eapply Forall2_impl; [| intros other m0 E; exact E].
    clear -Hms Hnotin. induction Hms as [| other m0 todo ms0 E _ IH'];
      constructor.
    + rewrite lookup_with_metric_ne; [done |]. intros ->. apply Hnotin. by left.
    + apply IH'. intros Hin. apply Hnotin. by right.
Qed.

Lemma datapoints_named (now : float) (pre : string) (todo : list nat)
    (ms : list Metric) (rs : list (value float * Metric)) (h : Heap) :
  Forall2 (fun self m => metrics h !! self = Some m) todo ms ->
  (forall self, self ∈ todo ->
     exists m, metrics h !! self = Some m /\ name m = Some (pre +:+ _suffix m)) ->
  datapoints now ms rs
  = zip_with (fun m r => (Some (pre +:+ _suffix m), now, r.1)) ms rs.
Proof.
  intros Hms. revert rs. induction Hms as [| self m todo ms E _ IH];
    intros rs Hnamed; [done |].
  destruct rs as [| r rs]; [done |]. unfold datapoints in *. cbn.
  destruct (Hnamed self) as (m' & E' & Hname); [by left |].
  assert (m' = m) as -> by congruence. rewrite Hname. f_equal.
  apply IH. intros other Hin. apply Hnamed. by right.
Qed.

(** One round of publishing.  For a manager of a heap in which metrics
    are registered with one manager each, and whose metrics can all be
    polled, [_publish_metrics] reads the clock once and hands to
    [publish_message] one message, made by appending one datapoint per
    registered metric, in the order of registration: the metric's name -
    the manager's prefix followed by the metric's suffix -, the one clock
    reading, and the value polled.  Every metric is left as its [poll]
    leaves it; the managers are unchanged. *)
Theorem publish_reports_every_metric (h : Heap) (self : nat)
    (g : MetricManager) (ms : list Metric) (rs : list (value float * Metric)) :
  one_manager_each h ->
  managers h !! self = Some g ->
  Forall2 (fun metric m => metrics h !! metric = Some m) (_metrics g) ms ->
  Forall2 (fun m r => polled m = Some r) ms rs ->
  _publish_metrics self h
  = Ok tt
      {| metrics := metrics (reset_all h (zip (_metrics g) rs.*2));
         managers := managers h;
         time_calls := S (time_calls h);
         published :=
           published h
           ++ [foldl MetricMessage_append MetricMessage_new
                 (zip_with
                    (fun m r =>
                       (Some (prefix g +:+ _suffix m),
                        time_time (time_calls h), r.1))
                    ms rs)] |}.
Proof.
  intros [Honce _ Hnamed] Hg Hms Hrs.
  unfold _publish_metrics, mbind, Py_bind, py_bind. rewrite time_eq.
  rewrite (get_manager_Some (tick h) self g Hg).
  pose proof (publish_loop_app (time_time (time_calls h)) (_metrics g) ms rs []
                MetricMessage_new (tick h) (Honce _ _ Hg) Hms Hrs) as Hloop.
  rewrite app_nil_r in Hloop. rewrite Hloop. cbn [publish_loop].
  rewrite reset_all_tick_eq. unfold publish_message. cbn.
  rewrite (datapoints_named _ (prefix g) (_metrics g) ms rs h Hms);
    [| intros metric Hin; by apply (Hnamed metric self g)].
  done.
Qed.

(** A round of publishing that meets a metric of the base class fails
    after the damage is done.  If the metrics listed before it are
    distinct from each other and from it and can be polled, the call
    raises [NotImplementedError] and nothing is published, but each of
    those metrics has been polled: what they had gathered is gone. *)
Theorem publish_fails_after_polling (h : Heap) (self unpollable : nat)
    (g : MetricManager) (before after : list nat) (m : Metric)
    (ms : list Metric) (rs : list (value float * Metric)) :
  managers h !! self = Some g ->
  _metrics g = before ++ unpollable :: after ->
  NoDup (before ++ [unpollable]) ->
  Forall2 (fun metric m => metrics h !! metric = Some m) before ms ->
  Forall2 (fun m r => polled m = Some r) ms rs ->
  metrics h !! unpollable = Some m ->
  attrs m = OfMetric ->
  _publish_metrics self h
  = Err (NotImplementedError "Metric subclasses should implement .poll()")
      {| metrics := metrics (reset_all h (zip before rs.*2));
         managers := managers h;
         time_calls := S (time_calls h);
         published := published h |}.
Proof.
  intros Hg Hlist Hnodup Hms Hrs Hm Ha.
  apply NoDup_app in Hnodup as (Hbefore & Hnotin & _).
  unfold _publish_metrics, mbind, Py_bind, py_bind. rewrite time_eq.
  rewrite (get_manager_Some (tick h) self g Hg), Hlist.
  rewrite (publish_loop_app _ before ms rs) by done.
  cbn [publish_loop]. unfold mbind, Py_bind, py_bind.
  assert (metrics (reset_all (tick h) (zip before rs.*2)) !! unpollable = Some m)
    as Hm'.
  { rewrite reset_all_other; [done |]. intros Hin.
    apply (Hnotin unpollable); [| by left].
    apply list_elem_of_fmap in Hin as ([x y] & -> & Hin).
    by apply elem_of_zip_l in Hin. }
  rewrite (get_metric_Some _ _ _ Hm'). unfold poll, mbind, Py_bind, py_bind.
  rewrite (get_metric_Some _ _ _ Hm'), Ha. unfold py_raise.
  by rewrite reset_all_tick_eq.
Qed.

(** ** Metrics: one manager for each metric *)

Lemma same_names_refl (h : Heap) : same_names h h.
Proof. done. Qed.

Lemma same_names_trans (h1 h2 h3 : Heap) :
  same_names h1 h2 -> same_names h2 h3 -> same_names h1 h3.
Proof. intros [E1 E2] [E3 E4]. split; congruence. Qed.

Lemma same_names_tick (h : Heap) : same_names h (tick h).
Proof. done. Qed.

Lemma same_names_with_attrs (h : Heap) (self : nat) (m : Metric)
    (a : attributes) :
  metrics h !! self = Some m ->
  same_names h (with_metric h self (with_attrs m a)).
Proof.
  intros E. split; [done |]. unfold names_of. cbn.
  rewrite fmap_insert. apply insert_id. by rewrite lookup_fmap, E.
Qed.

Lemma one_manager_each_same_names (h h' : Heap) :
  same_names h h' -> one_manager_each h -> one_manager_each h'.
Proof.
  intros [Hg Hn] [Honce Hone Hnamed].
  assert (forall metric self, listed h' metric self -> listed h metric self)
    as Hlisted.
  { intros metric self (g & Eg & Hin). exists g. by rewrite <- Hg. }
  split.
  - intros self g Eg. rewrite Hg in Eg. by eapply Honce.
  - intros metric self1 self2 H1 H2. eapply Hone; by apply Hlisted.
  - intros metric self g Eg Hin. rewrite Hg in Eg.
    destruct (Hnamed metric self g Eg Hin) as (m & Em & Hname).
    assert (names_of h' !! metric = Some (name m, _suffix m)) as En.
    { rewrite Hn. unfold names_of. by rewrite lookup_fmap, Em. }
    unfold names_of in En. rewrite lookup_fmap in En.
    destruct (metrics h' !! metric) as [m' |]; [| done].
    injection En as En Es. exists m'. split; [done |]. congruence.
Qed.

Lemma poll_same_names (self : nat) (h : Heap) :
  same_names h (heap_of (poll self h)).
Proof.
  unfold poll, mbind, Py_bind, py_bind, get_metric.
  destruct (metrics h !! self) as [m |] eqn:E; [| done].
  destruct (attrs m); cbn; try done; by apply same_names_with_attrs.
Qed.

Lemma set_same_names (self : nat) (v : value float) (h : Heap) :
  same_names h (heap_of (set self v h)).
Proof.
  unfold set, mbind, Py_bind, py_bind, get_metric.
  destruct (metrics h !! self) as [m |] eqn:E; [| done].
  destruct (attrs m); cbn; try done; by apply same_names_with_attrs.
Qed.

Lemma inc_same_names (self : nat) (h : Heap) :
  same_names h (heap_of (inc self h)).
Proof.
  unfold inc, mbind, Py_bind, py_bind, get_metric.
  destruct (metrics h !! self) as [m |] eqn:E; [| done].
  destruct (attrs m); cbn; try done; by apply same_names_with_attrs.
Qed.

Lemma add_same_names (self : nat) (amount : value float) (h : Heap) :
  same_names h (heap_of (add self amount h)).
Proof.
  unfold add, mbind, Py_bind, py_bind, get_metric.
  destruct (metrics h !! self) as [m |] eqn:E; [| done].
  destruct (attrs m); cbn; try done; by apply same_names_with_attrs.
Qed.

Lemma start_same_names (self : nat) (h : Heap) :
  same_names h (heap_of (start self h)).
Proof.
  unfold start, mbind, Py_bind, py_bind, get_metric.
  destruct (metrics h !! self) as [m |] eqn:E; [| done].
  destruct (attrs m) as [| | | | v c avg [started |]]; cbn; try done.
  apply (same_names_trans _ (tick h)); [done |].
  by apply (same_names_with_attrs (tick h)).
Qed.

Lemma stop_same_names (self : nat) (h : Heap) :
  same_names h (heap_of (stop self h)).
Proof.
  destruct (metrics h !! self) as [m |] eqn:E;
    [| by unfold stop, mbind, Py_bind, py_bind, get_metric; rewrite E].
  destruct (attrs m) as [| | | | v c avg [started |]] eqn:Ha;
    try (by unfold stop, mbind, Py_bind, py_bind, get_metric; rewrite E, Ha).
  rewrite (stop_started h self m v c avg started E Ha). cbn [heap_of].
  apply (same_names_trans _ (tick h)); [done |].
  by apply (same_names_with_attrs (tick h)).
Qed.

Lemma publish_loop_same_names (now : float) (todo : list nat) :
  forall (msg : MetricMessage) (h : Heap),
    same_names h (heap_of (publish_loop now msg todo h)).
Proof.
  induction todo as [| metric todo IH]; intros msg h; [done |].
  cbn [publish_loop]. unfold mbind, Py_bind, py_bind.
  destruct (get_metric metric h) as [m h1 | e h1] eqn:Eget.
  2:{ unfold get_metric in Eget. destruct (metrics h !! metric); [done |].
      by injection Eget as _ <-. }
  assert (h1 = h) as ->.
  { unfold get_metric in Eget. destruct (metrics h !! metric); [| done].
    by injection Eget as _ <-. }
  pose proof (poll_same_names metric h) as Hpoll.
  destruct (poll metric h) as [v h2 | e h2]; cbn [heap_of] in Hpoll; [| done].
  eapply same_names_trans; [exact Hpoll | apply IH].
Qed.

Lemma publish_same_names (self : nat) (h : Heap) :
  same_names h (heap_of (_publish_metrics self h)).
Proof.
  unfold _publish_metrics, mbind, Py_bind, py_bind. rewrite time_eq.
  unfold get_manager. cbn [managers tick].
  destruct (managers h !! self) as [g |]; [| done].
  pose proof (publish_loop_same_names (time_time (time_calls h)) (_metrics g)
                MetricMessage_new (tick h)) as Hloop.
  destruct (publish_loop _ _ _ (tick h)) as [msg h1 | e h1];
    cbn [heap_of] in *; eapply same_names_trans; try exact Hloop; done.
Qed.

Lemma register_raises_unchanged (self metric : nat) (h h' : Heap) (e : error) :
  register self metric h = Err e h' -> h' = h.
Proof.
  unfold register, mbind, Py_bind, py_bind, get_manager.
  destruct (managers h !! self) as [g |] eqn:Eg; [| by intros [= _ <-]].
  unfold manage, mbind, Py_bind, py_bind, get_metric.
  destruct (metrics h !! metric) as [m |]; [| by intros [= _ <-]].
  destruct (name m); [by intros [= _ <-] |]. cbn.
  by rewrite Eg.
Qed.

Lemma one_manager_each_empty : one_manager_each empty_heap.
Proof. split; intros *; cbn; try (intros [g [Hg _]]); by rewrite ?lookup_empty. Qed.

Lemma new_metric_keeps_one_manager_each (m : Metric) (h : Heap) :
  name m = None ->
  one_manager_each h -> one_manager_each (heap_of (new_metric m h)).
Proof.
  intros Hname [Honce Hone Hnamed]. cbn.
  set (fresh_ref := fresh (dom (metrics h))).
  assert (metrics h !! fresh_ref = None) as Hfresh
    by apply not_elem_of_dom, is_fresh.
  split; [done | done |].
  intros metric self g Eg Hin. cbn in Eg.
  destruct (Hnamed metric self g Eg Hin) as (m0 & Em0 & Hn0).
  exists m0. split; [| done]. cbn.
  rewrite lookup_insert_ne; [done |]. intros <-. congruence.
Qed.

Lemma new_manager_keeps_one_manager_each (pre : string) (interval : Z)
    (h : Heap) :
  one_manager_each h ->
  one_manager_each (heap_of (new_MetricManager pre interval h)).
Proof.
  intros [Honce Hone Hnamed]. cbn.
  set (fresh_ref := fresh (dom (managers h))).
  assert (managers h !! fresh_ref = None) as Hfresh
    by apply not_elem_of_dom, is_fresh.
  assert (forall metric self,
            listed {| metrics := metrics h;
                      managers :=
                        <[fresh_ref := {| prefix := pre; _metrics := [];
                                          _publish_interval := interval |}]>
                          (managers h);
                      time_calls := time_calls h;
                      published := published h |} metric self ->
            self <> fresh_ref /\ listed h metric self) as Hlisted.
  { intros metric self (g & Eg & Hin). cbn in Eg.
    destruct (decide (self = fresh_ref)) as [-> | Hne].
    - rewrite lookup_insert_eq in Eg. injection Eg as <-. cbn in Hin.
      by apply elem_of_nil in Hin.
    - rewrite lookup_insert_ne in Eg by done. split; [done |]. by exists g. }
  split.
  - intros self g Eg. cbn in Eg.
    destruct (decide (self = fresh_ref)) as [-> | Hne].
    + rewrite lookup_insert_eq in Eg. injection Eg as <-. cbn. constructor.
    + rewrite lookup_insert_ne in Eg by done. by eapply Honce.
  - intros metric self1 self2 [_ H1]%Hlisted [_ H2]%Hlisted. by eapply Hone.
  - intros metric self g Eg Hin.
    destruct (Hlisted metric self) as [Hne (g' & Eg' & Hin')]; [by exists g |].
    cbn in Eg. rewrite lookup_insert_ne in Eg by done.
    by apply (Hnamed metric self g).
Qed.

Lemma perform_keeps_one_manager_each (c : call) (h : Heap) :
  one_manager_each h -> one_manager_each (perform c h).
Proof.
  intros Hh. destruct c; cbn [perform].
  - by apply new_metric_keeps_one_manager_each.
  - by apply new_manager_keeps_one_manager_each.
  - destruct (register self metric h) as [r h' | e h'] eqn:E; cbn [heap_of].
    + by eapply register_keeps_one_manager_each.
    + by apply register_raises_unchanged in E as ->.
  - eapply one_manager_each_same_names; [apply publish_same_names | done].
  - eapply one_manager_each_same_names; [apply poll_same_names | done].
  - eapply one_manager_each_same_names; [apply set_same_names | done].
  - eapply one_manager_each_same_names; [apply inc_same_names | done].
  - eapply one_manager_each_same_names; [apply add_same_names | done].
  - eapply one_manager_each_same_names; [apply start_same_names | done].
  - eapply one_manager_each_same_names; [apply stop_same_names | done].
Qed.

Lemma perform_all_keeps_one_manager_each (cs : list call) (h : Heap) :
  one_manager_each h -> one_manager_each (perform_all cs h).
Proof.
  unfold perform_all. revert h.
  induction cs as [| c cs IH]; intros h Hh; [done |].
  cbn [foldl]. apply IH. by apply perform_keeps_one_manager_each.
Qed.

(** "A metric can be registered with only one metric set."  Whatever
    calls are made, starting with no objects - constructors, [register],
    [_publish_metrics] and the methods of the metrics, in any order and
    whether they return or raise -, every manager lists a metric at most
    once, no metric is listed by two managers, and every listed metric
    bears the name made of its manager's prefix and its own suffix. *)
Theorem every_metric_has_one_manager (cs : list call) :
  one_manager_each (perform_all cs empty_heap).
Proof. apply perform_all_keeps_one_manager_each, one_manager_each_empty. Qed.

End Facts.

End MetricsFacts.

(** ** The server run on the small codec *)

Local Abbreviation demo_dispatch :=
  (dispatch Demo.unpack_pdu Demo.get_bin Demo.uuid4_str Demo.now_strftime).
Local Abbreviation demo_dispatchAll :=
  (dispatchAll Demo.unpack_pdu Demo.get_bin Demo.uuid4_str Demo.now_strftime).
Local Abbreviation demo_handleData :=
  (handleData Demo.unpack_pdu Demo.get_bin Demo.uuid4_str Demo.now_strftime).
Local Abbreviation demo_handleAll :=
  (handleAll Demo.unpack_pdu Demo.get_bin Demo.uuid4_str Demo.now_strftime).
Local Abbreviation demo_dataReceived :=
  (dataReceived Demo.unpack_pdu Demo.get_bin Demo.uuid4_str Demo.now_strftime).
Local Abbreviation demo_deliver :=
  (deliver Demo.unpack_pdu Demo.get_bin Demo.uuid4_str Demo.now_strftime).

Example be_uint_example : be_uint [x00; x00; x01; x02] = 258.
Proof. reflexivity. Qed.

Example b2a_hex_example :
  Binascii.b2a_hex [x00; x00; x00; x1f] = "0000001f".
Proof. reflexivity. Qed.

Example popData_example :
  popData Demo.world0
    {| datastream := Demo.enquire_link_frame ++ Demo.submit_sm_part |}
  = Returns (Some Demo.enquire_link_frame) Demo.world0
      {| datastream := Demo.submit_sm_part |}.
Proof. reflexivity. Qed.

Example dataReceived_example :
  demo_dataReceived 5 (Demo.enquire_link_frame ++ Demo.submit_sm_part)
    Demo.world0 SmscServer_init
  = Returns tt
      {| uuid4_calls := 0; now_calls := 0;
         written := [Demo.get_bin (EnquireLinkResp 3)] |}
      {| datastream := Demo.submit_sm_part |}.
Proof. reflexivity. Qed.

Lemma demo_uuid4_str_inj (j k : nat) :
  Demo.uuid4_str j = Demo.uuid4_str k -> j = k.
Proof.
  revert k. induction j as [| j IH]; intros [| k]; cbn; try done.
  intros [= H]. f_equal. by apply IH.
Qed.

Lemma demo_codec_decodes_its_output (q : PDU) :
  loggable Demo.unpack_pdu Demo.get_bin q.
Proof. destruct q; eexists; reflexivity. Qed.

Lemma popData_follows_algorithm_witness :
  let self := {| datastream := Demo.enquire_link_frame ++ Demo.submit_sm_part |} in
  let buf := datastream self in
  (16 <= N.of_nat (length buf) /\ be_uint (take 4 buf) <= N.of_nat (length buf))
  /\ exists frame rest,
       popData Demo.world0 self
       = Returns (Some frame) Demo.world0 {| datastream := rest |}
       /\ buf = frame ++ rest
       /\ N.of_nat (length frame) = be_uint (take 4 buf).
Proof.
  cbv zeta.
  assert (16 <= N.of_nat (length (Demo.enquire_link_frame ++ Demo.submit_sm_part)))
    as H16 by (vm_compute; discriminate).
  assert (be_uint (take 4 (Demo.enquire_link_frame ++ Demo.submit_sm_part))
          <= N.of_nat (length (Demo.enquire_link_frame ++ Demo.submit_sm_part)))
    as Hn by (vm_compute; discriminate).
  split; [by split |].
  exact (proj1 (proj2 (proj2
    (popData_follows_algorithm Demo.world0
       {| datastream := Demo.enquire_link_frame ++ Demo.submit_sm_part |})))
    H16 Hn).
Defined.

Lemma demo_frame_valid : valid_frame Demo.enquire_link_frame.
Proof. split; [vm_compute; discriminate | reflexivity]. Defined.

Lemma demo_part_partial : strictly_partial Demo.submit_sm_part.
Proof.
  exists (Demo.submit_sm_part ++ [x00; x00; x00; x00]), [x00; x00; x00; x00].
  split; [split; [vm_compute; discriminate | reflexivity] |].
  split; [reflexivity | discriminate].
Defined.

Lemma framing_composition_witness :
  let chunks :=
    [take 10 Demo.enquire_link_frame;
     drop 10 Demo.enquire_link_frame ++ take 7 Demo.enquire_link_frame;
     [];
     drop 7 Demo.enquire_link_frame ++ Demo.submit_sm_part] in
  let frames := [Demo.enquire_link_frame; Demo.enquire_link_frame] in
  feed 60 chunks Demo.world0 SmscServer_init
  = Returns frames Demo.world0 {| datastream := Demo.submit_sm_part |}
  /\ match demo_handleAll frames Demo.world0 SmscServer_init with
     | Returns _ w' _ =>
         demo_deliver 60 chunks Demo.world0 SmscServer_init
         = Returns tt w' {| datastream := Demo.submit_sm_part |}
     | Raises e w' _ =>
         exists self',
           demo_deliver 60 chunks Demo.world0 SmscServer_init = Raises e w' self'
     | OutOfFuel => False
     end.
Proof.
  cbv zeta. apply framing_composition.
  - repeat constructor; apply demo_frame_valid.
  - apply demo_part_partial.
  - reflexivity.
  - vm_compute. lia.
Defined.

(** With 16 bytes buffered of which the first four declare length 4,
    [popData] returns those four bytes as a frame and raises nothing. *)
Lemma declared_length_4_yields_a_frame :
  popData Demo.world0 {| datastream := Demo.be4 4 ++ replicate 12 x00 |}
  = Returns (Some (Demo.be4 4)) Demo.world0 {| datastream := replicate 12 x00 |}.
Proof. reflexivity. Qed.

Lemma popData_declared_length_4_witness :
  let self := {| datastream := Demo.be4 4 ++ replicate 12 x00 |} in
  be_uint (take 4 (datastream self)) = 4
  /\ (16 <= N.of_nat (length (datastream self)) ->
      popData Demo.world0 self
      = Returns (Some (take 4 (datastream self))) Demo.world0
          {| datastream := drop 4 (datastream self) |})
  /\ (N.of_nat (length (datastream self)) < 16 ->
      popData Demo.world0 self = Returns None Demo.world0 self).
Proof.
  cbv zeta. split; [reflexivity |].
  apply (popData_declared_length_4 Demo.world0
           {| datastream := Demo.be4 4 ++ replicate 12 x00 |}).
  reflexivity.
Defined.

Example bind_example :
  demo_dispatch (Demo.bind_pdu 7 "foo") Demo.world0 SmscServer_init
  = Returns tt
      {| uuid4_calls := 0; now_calls := 0;
         written := [Demo.get_bin (BindTransceiverResp 7 "foo")] |}
      SmscServer_init.
Proof. reflexivity. Qed.

Example submit_example :
  demo_dispatch (Demo.submit_pdu 42) Demo.world0 SmscServer_init
  = Returns tt
      {| uuid4_calls := 1; now_calls := 2;
         written :=
           [Demo.get_bin (SubmitSMResp 42 "");
            Demo.get_bin
              (DeliverSM 1
                 "id: sub:001 dlvrd:001 submit date:110818120000 done date:110818120000 stat:DELIVRD err:000 text:")] |}
      SmscServer_init.
Proof. reflexivity. Qed.

(** A bind with success status, sequence number 7 and identity "foo",
    dispatched on a fresh connection, returns the protocol object it was
    given.  No reading of a session off the protocol object can then be
    [Unbound] before the bind and [Bound] to "foo" after it. *)
Lemma bind_makes_no_transition :
  demo_dispatch (Demo.bind_pdu 7 "foo") Demo.world0 SmscServer_init
  = Returns tt
      {| uuid4_calls := 0; now_calls := 0;
         written := [Demo.get_bin (BindTransceiverResp 7 "foo")] |}
      SmscServer_init
  /\ ~ exists view : SmscServer -> Session,
         state (view SmscServer_init) = Unbound
         /\ forall w' self',
              demo_dispatch (Demo.bind_pdu 7 "foo") Demo.world0 SmscServer_init
              = Returns tt w' self' ->
              state (view self') = Bound
              /\ boundIdentity (view self') = Some "foo".
Proof.
  split; [reflexivity |].
  intros (view & Hbefore & Hafter).
  destruct (Hafter _ _ bind_example) as [Hbound _]. congruence.
Qed.

Lemma bind_is_acknowledged_witness :
  let p := Demo.bind_pdu 7 "foo" in
  (successful "bind_transceiver" p
   /\ body p = Some {| mandatory_parameters := Some {[ "system_id" := "foo" ]} |}
   /\ ({[ "system_id" := "foo" ]} : gmap string string) !! "system_id" = Some "foo"
   /\ loggable Demo.unpack_pdu Demo.get_bin
        (BindTransceiverResp (sequence_number (header p)) "foo"))
  /\ demo_dispatch p Demo.world0 SmscServer_init
     = Returns tt
         {| uuid4_calls := 0; now_calls := 0;
            written := [] ++ [Demo.get_bin (BindTransceiverResp 7 "foo")] |}
         SmscServer_init.
Proof.
  cbv zeta.
  assert (successful "bind_transceiver" (Demo.bind_pdu 7 "foo")) as Hok
    by (split; reflexivity).
  assert (({[ "system_id" := "foo" ]} : gmap string string) !! "system_id"
          = Some "foo") as Hid by reflexivity.
  pose proof (demo_codec_decodes_its_output
                (BindTransceiverResp
                   (sequence_number (header (Demo.bind_pdu 7 "foo"))) "foo"))
    as Hlog.
  exact (conj (conj Hok (conj eq_refl (conj Hid Hlog)))
           (bind_is_acknowledged Demo.unpack_pdu Demo.get_bin Demo.uuid4_str
              Demo.now_strftime (Demo.bind_pdu 7 "foo") _ _ "foo" Demo.world0
              SmscServer_init Hok eq_refl eq_refl Hid Hlog)).
Defined.

Lemma submit_is_acknowledged_then_notified_witness :
  (successful "submit_sm" (Demo.submit_pdu 42)
   /\ Forall (loggable Demo.unpack_pdu Demo.get_bin)
        (submit_output Demo.uuid4_str Demo.now_strftime
           (uuid4_calls Demo.world0) (now_calls Demo.world0) (Demo.submit_pdu 42)))
  /\ exists X notification_seq text,
       demo_dispatch (Demo.submit_pdu 42) Demo.world0 SmscServer_init
       = Returns tt
           {| uuid4_calls := 1; now_calls := 2;
              written :=
                [] ++ [Demo.get_bin (SubmitSMResp 42 X);
                       Demo.get_bin (DeliverSM notification_seq text)] |}
           SmscServer_init
       /\ X = Demo.uuid4_str 0
       /\ contains text X
       /\ contains text "stat:DELIVRD".
Proof.
  assert (successful "submit_sm" (Demo.submit_pdu 42)) as Hok
    by (split; reflexivity).
  assert (Forall (loggable Demo.unpack_pdu Demo.get_bin)
            (submit_output Demo.uuid4_str Demo.now_strftime
               (uuid4_calls Demo.world0) (now_calls Demo.world0)
               (Demo.submit_pdu 42))) as Hlog
    by (apply Forall_forall; intros q _; apply demo_codec_decodes_its_output).
  exact (conj (conj Hok Hlog)
           (submit_is_acknowledged_then_notified Demo.unpack_pdu Demo.get_bin
              Demo.uuid4_str Demo.now_strftime (Demo.submit_pdu 42) Demo.world0
              SmscServer_init Hok Hlog)).
Defined.

Lemma failed_or_unrecognized_is_noop_witness :
  let failed :=
    {| header := Demo.header_of "submit_sm" "ESME_RSYSERR" 5; body := None |} in
  let unrecognized :=
    {| header := Demo.header_of "unbind" "ESME_ROK" 6; body := None |} in
  command_status (header failed) <> "ESME_ROK"
  /\ demo_dispatch failed Demo.world0 SmscServer_init
     = Returns tt Demo.world0 SmscServer_init
  /\ demo_dispatch unrecognized Demo.world0 SmscServer_init
     = Returns tt Demo.world0 SmscServer_init.
Proof.
  cbv zeta. split; [discriminate |]. split.
  - apply failed_or_unrecognized_is_noop. left. discriminate.
  - apply failed_or_unrecognized_is_noop. right.
    repeat split; discriminate.
Defined.

Lemma replies_echo_the_sequence_number_witness :
  let w' :=
    {| uuid4_calls := 1; now_calls := 2;
       written :=
         [Demo.get_bin (SubmitSMResp 42 "");
          Demo.get_bin
            (DeliverSM 1
               "id: sub:001 dlvrd:001 submit date:110818120000 done date:110818120000 stat:DELIVRD err:000 text:")] |} in
  demo_dispatch (Demo.submit_pdu 42) Demo.world0 SmscServer_init
  = Returns tt w' SmscServer_init
  /\ exists out,
       written w' = written Demo.world0 ++ map Demo.get_bin out
       /\ Forall (echoes_or_notifies 42) out.
Proof.
  cbv zeta. split; [reflexivity |].
  exact (replies_echo_the_sequence_number Demo.unpack_pdu Demo.get_bin Demo.uuid4_str
           Demo.now_strftime (Demo.submit_pdu 42) Demo.world0 _
           SmscServer_init SmscServer_init submit_example).
Defined.

Lemma message_identifiers_are_distinct_witness :
  let ps := [Demo.submit_pdu 1; Demo.submit_pdu 2; Demo.submit_pdu 2] in
  ((forall j k, Demo.uuid4_str j = Demo.uuid4_str k -> j = k)
   /\ (forall q, loggable Demo.unpack_pdu Demo.get_bin q)
   /\ Forall (successful "submit_sm") ps)
  /\ exists out,
       demo_dispatchAll ps Demo.world0 SmscServer_init
       = Returns tt
           {| uuid4_calls := 0 + 3; now_calls := 0 + 2 * 3;
              written := [] ++ map Demo.get_bin out |}
           SmscServer_init
       /\ out = submits_output Demo.uuid4_str Demo.now_strftime 0 0 ps
       /\ message_ids out = Demo.uuid4_str <$> seq 0 3
       /\ length (message_ids out) = 3%nat
       /\ NoDup (message_ids out).
Proof.
  cbv zeta.
  assert (Forall (successful "submit_sm")
            [Demo.submit_pdu 1; Demo.submit_pdu 2; Demo.submit_pdu 2]) as Hps
    by (repeat constructor).
  exact (conj (conj demo_uuid4_str_inj (conj demo_codec_decodes_its_output Hps))
           (message_identifiers_are_distinct Demo.unpack_pdu Demo.get_bin
              Demo.uuid4_str Demo.now_strftime _ Demo.world0 SmscServer_init
              demo_uuid4_str_inj demo_codec_decodes_its_output Hps)).
Defined.

Lemma notifications_carry_sequence_number_1_witness :
  let ps := [Demo.submit_pdu 1; Demo.submit_pdu 2; Demo.submit_pdu 2] in
  let w' (out : list PDU) :=
    {| uuid4_calls := 0 + 3; now_calls := 0 + 2 * 3;
       written := [] ++ map Demo.get_bin out |} in
  (Forall (successful "submit_sm") ps
   /\ forall q, loggable Demo.unpack_pdu Demo.get_bin q)
  /\ exists out,
       out = submits_output Demo.uuid4_str Demo.now_strftime 0 0 ps
       /\ notification_sequence_numbers out = repeat 1%Z 3
       /\ demo_dispatchAll ps Demo.world0 SmscServer_init
          = Returns tt (w' out) SmscServer_init.
Proof.
  cbv zeta.
  assert (Forall (successful "submit_sm")
            [Demo.submit_pdu 1; Demo.submit_pdu 2; Demo.submit_pdu 2]) as Hps
    by (repeat constructor).
  split; [exact (conj Hps demo_codec_decodes_its_output) |].
  destruct (notifications_carry_sequence_number_1 Demo.unpack_pdu Demo.get_bin
              Demo.uuid4_str Demo.now_strftime _ Demo.world0 SmscServer_init Hps)
    as (out & Hout & Hseq & _ & Hreturns).
  exists out.
  exact (conj Hout (conj Hseq (Hreturns demo_codec_decodes_its_output))).
Defined.

Example zero_length_example :
  demo_dataReceived 1000 (replicate 16 x00) Demo.world0 SmscServer_init
  = Raises (CodecError "short header") Demo.world0
      {| datastream := replicate 16 x00 |}.
Proof. reflexivity. Qed.



(** ** Further runs of the server *)

Lemma enquire_link_is_acknowledged_witness :
  (successful "enquire_link" (Demo.enquire_pdu 3)
   /\ loggable Demo.unpack_pdu Demo.get_bin
        (EnquireLinkResp (sequence_number (header (Demo.enquire_pdu 3)))))
  /\ demo_dispatch (Demo.enquire_pdu 3) Demo.world0 SmscServer_init
     = Returns tt
         {| uuid4_calls := 0; now_calls := 0;
            written := [] ++ [Demo.get_bin (EnquireLinkResp 3)] |}
         SmscServer_init.
Proof.
  assert (successful "enquire_link" (Demo.enquire_pdu 3)) as Hok
    by (split; reflexivity).
  pose proof (demo_codec_decodes_its_output
                (EnquireLinkResp (sequence_number (header (Demo.enquire_pdu 3)))))
    as Hlog.
  exact (conj (conj Hok Hlog)
           (proj1 (enquire_link_is_acknowledged Demo.unpack_pdu Demo.get_bin
                     Demo.uuid4_str Demo.now_strftime (Demo.enquire_pdu 3)
                     Demo.world0 SmscServer_init Hok) Hlog)).
Defined.

Lemma bind_without_identity_raises_witness :
  let p := {| header := Demo.header_of "bind_transceiver" "ESME_ROK" 7;
              body := None |} in
  (successful "bind_transceiver" p /\ body p = None)
  /\ demo_dispatch p Demo.world0 SmscServer_init
     = Raises (KeyError "body") Demo.world0 SmscServer_init.
Proof.
  cbv zeta.
  assert (successful "bind_transceiver"
            {| header := Demo.header_of "bind_transceiver" "ESME_ROK" 7;
               body := None |}) as Hok by (split; reflexivity).
  split; [by split |].
  exact (proj1 (bind_without_identity_raises Demo.unpack_pdu Demo.get_bin Demo.uuid4_str
                  Demo.now_strftime _ Demo.world0 SmscServer_init Hok) eq_refl).
Defined.

Lemma undecodable_frame_is_dropped_witness :
  let frame := Demo.be4 4 in
  let rest := replicate 12 x00 in
  (popData Demo.world0 {| datastream := datastream SmscServer_init ++ frame ++ rest |}
   = Returns (Some frame) Demo.world0 {| datastream := rest |}
   /\ Demo.unpack_pdu frame = inl (CodecError "short header"))
  /\ demo_dataReceived 1 (frame ++ rest) Demo.world0 SmscServer_init
     = Raises (CodecError "short header") Demo.world0 {| datastream := rest |}.
Proof.
  cbv zeta. split; [by split |].
  exact (undecodable_frame_is_dropped Demo.unpack_pdu Demo.get_bin
           Demo.uuid4_str Demo.now_strftime 0 (Demo.be4 4 ++ replicate 12 x00)
           (Demo.be4 4) (replicate 12 x00) (CodecError "short header")
           Demo.world0 SmscServer_init eq_refl eq_refl).
Defined.

Lemma frame_delivered_byte_by_byte_witness :
  (valid_frame Demo.enquire_link_frame
   /\ (length Demo.enquire_link_frame <= 16)%nat)
  /\ (forall k,
        (k < length Demo.enquire_link_frame)%nat ->
        demo_deliver 16 ((fun b => [b]) <$> take k Demo.enquire_link_frame)
          Demo.world0 SmscServer_init
        = Returns tt Demo.world0 {| datastream := take k Demo.enquire_link_frame |})
  /\ match demo_handleData Demo.enquire_link_frame Demo.world0 SmscServer_init with
     | Returns _ w' _ =>
         demo_deliver 16 ((fun b => [b]) <$> Demo.enquire_link_frame)
           Demo.world0 SmscServer_init
         = Returns tt w' {| datastream := [] |}
     | Raises e w' _ =>
         exists self',
           demo_deliver 16 ((fun b => [b]) <$> Demo.enquire_link_frame)
             Demo.world0 SmscServer_init
           = Raises e w' self'
     | OutOfFuel => False
     end.
Proof.
  assert (length Demo.enquire_link_frame <= 16)%nat as Hfuel by (cbn; lia).
  split; [split; [exact demo_frame_valid | exact Hfuel] |].
  exact (frame_delivered_byte_by_byte Demo.unpack_pdu Demo.get_bin
           Demo.uuid4_str Demo.now_strftime Demo.enquire_link_frame 16
           Demo.world0 demo_frame_valid Hfuel).
Defined.

Lemma dataReceived_conserves_bytes_witness :
  let data := Demo.enquire_link_frame ++ Demo.submit_sm_part in
  let w' := {| uuid4_calls := 0; now_calls := 0;
               written := [Demo.get_bin (EnquireLinkResp 3)] |} in
  let self' := {| datastream := Demo.submit_sm_part |} in
  demo_dataReceived 5 data Demo.world0 SmscServer_init = Returns tt w' self'
  /\ exists frames,
       datastream SmscServer_init ++ data = concat frames ++ datastream self'
       /\ popData w' self' = Returns None w' self'
       /\ demo_handleAll frames Demo.world0 SmscServer_init
          = Returns tt w' SmscServer_init.
Proof.
  cbv zeta. split; [reflexivity |].
  exact (dataReceived_conserves_bytes Demo.unpack_pdu Demo.get_bin
           Demo.uuid4_str Demo.now_strftime 5 _ Demo.world0 _ SmscServer_init _
           dataReceived_example).
Defined.


Lemma stream_is_dispatched_in_order_witness :
  let chunks :=
    [take 10 Demo.enquire_link_frame;
     drop 10 Demo.enquire_link_frame ++ take 7 Demo.enquire_link_frame;
     drop 7 Demo.enquire_link_frame ++ Demo.submit_sm_part] in
  let frames := [Demo.enquire_link_frame; Demo.enquire_link_frame] in
  let commands := [Demo.enquire_pdu 3; Demo.enquire_pdu 3] in
  Forall2 (fun frame p => Demo.unpack_pdu frame = inr p) frames commands
  /\ match demo_dispatchAll commands Demo.world0 SmscServer_init with
     | Returns _ w' _ =>
         demo_deliver 60 chunks Demo.world0 SmscServer_init
         = Returns tt w' {| datastream := Demo.submit_sm_part |}
     | Raises e w' _ =>
         exists self',
           demo_deliver 60 chunks Demo.world0 SmscServer_init = Raises e w' self'
     | OutOfFuel => False
     end.
Proof.
  cbv zeta.
  assert (Forall2 (fun frame p => Demo.unpack_pdu frame = inr p)
            [Demo.enquire_link_frame; Demo.enquire_link_frame]
            [Demo.enquire_pdu 3; Demo.enquire_pdu 3]) as Hdecoded
    by (repeat constructor).
  split; [exact Hdecoded |].
  apply stream_is_dispatched_in_order with
    (frames := [Demo.enquire_link_frame; Demo.enquire_link_frame]).
  - repeat constructor; apply demo_frame_valid.
  - apply demo_part_partial.
  - reflexivity.
  - vm_compute. lia.
  - exact Hdecoded.
Defined.


(** ** Runs of the metrics *)

Module MetricsRun.

Import Metrics MetricsFacts.

#[local] Existing Instance demo_runtime.

Example demo_heap_metrics :
  (fun self => metrics demo_heap !! self) <$> [0; 1; 2; 3; 4; 5; 6]%nat
  = [Some count0; Some sum1; Some timer2; Some base3; Some count4;
     Some value5; None].
Proof. vm_compute. reflexivity. Qed.

Example demo_publish :
  published (heap_of (_publish_metrics 0 demo_heap))
  = [[(Some "vumi.worker0.my.count", 0%float, IntValue 2);
      (Some "vumi.worker0.my.sum", 0%float, FloatValue 1.75%float);
      (Some "vumi.worker0.hard.work", 0%float, FloatValue 0%float)]].
Proof. vm_compute. reflexivity. Qed.

Lemma demo_heap_built : perform_all demo_calls empty_heap = demo_heap.
Proof. vm_compute. reflexivity. Qed.

Lemma demo_heap_one_manager_each : one_manager_each demo_heap.
Proof.
  rewrite <- demo_heap_built.
  apply perform_all_keeps_one_manager_each, one_manager_each_empty.
Qed.

Lemma register_registered_raises_witness :
  (managers demo_heap !! 1%nat = Some manager1
   /\ metrics demo_heap !! 0%nat = Some count0
   /\ name count0 = Some "vumi.worker0.my.count")
  /\ register 1 0 demo_heap
     = Err (MetricRegistrationError
              ("Metric " +:+ prefix manager1 +:+ _suffix count0
                 +:+ " already registered with a MetricManager.")) demo_heap.
Proof.
  assert (managers demo_heap !! 1%nat = Some manager1) as Hg
    by (vm_compute; reflexivity).
  assert (metrics demo_heap !! 0%nat = Some count0) as Hm
    by (vm_compute; reflexivity).
  split; [by repeat split |].
  exact (register_registered_raises demo_heap 1 0 manager1 count0 _ Hg Hm eq_refl).
Defined.

Lemma new_metric_is_registered_witness :
  managers demo_heap !! 0%nat = Some manager0
  /\ exists metric h',
       (metric ← new_metric (Metric_init "my.value" (OfSimpleValue (FloatValue 0%float)));
        register 0 metric) demo_heap
       = Ok metric h'
       /\ metrics demo_heap !! metric = None
       /\ metrics h' !! metric
          = Some {| name := Some (prefix manager0 +:+ "my.value");
                    _suffix := "my.value";
                    attrs := OfSimpleValue (FloatValue 0%float) |}
       /\ managers h' !! 0%nat = Some (listing manager0 metric)
       /\ (forall other, other <> metric ->
             metrics h' !! other = metrics demo_heap !! other)
       /\ time_calls h' = time_calls demo_heap
       /\ published h' = published demo_heap.
Proof.
  assert (managers demo_heap !! 0%nat = Some manager0) as Hg
    by (vm_compute; reflexivity).
  split; [exact Hg |].
  exact (new_metric_is_registered demo_heap 0 manager0 "my.value"
           (OfSimpleValue (FloatValue 0%float)) Hg).
Defined.

Lemma simple_value_keeps_the_last_set_witness :
  (metrics demo_heap !! 5%nat = Some value5
   /\ attrs value5 = OfSimpleValue (FloatValue PrimFloat.zero))
  /\ (set 5 (FloatValue 1.5%float);; set 5 (IntValue 7);;
      first ← poll 5; second ← poll 5; mret (first, second)) demo_heap
     = Ok (IntValue 7, IntValue 7)
         (with_metric demo_heap 5 (with_attrs value5 (OfSimpleValue (IntValue 7)))).
Proof.
  assert (metrics demo_heap !! 5%nat = Some value5) as Hm
    by (vm_compute; reflexivity).
  exact (conj (conj Hm eq_refl)
           (simple_value_keeps_the_last_set demo_heap 5 value5
              (FloatValue PrimFloat.zero) (FloatValue 1.5%float) (IntValue 7)
              Hm eq_refl)).
Defined.

Lemma count_polls_its_increments_witness :
  (metrics demo_heap !! 0%nat = Some count0 /\ attrs count0 = OfCount 2)
  /\ (times 3 (inc 0);; first ← poll 0; second ← poll 0;
      mret (first, second)) demo_heap
     = Ok (IntValue (2 + Z.of_nat 3), IntValue 0)
         (with_metric demo_heap 0 (with_attrs count0 (OfCount 0))).
Proof.
  assert (metrics demo_heap !! 0%nat = Some count0) as Hm
    by (vm_compute; reflexivity).
  split; [by split |].
  exact (count_polls_its_increments demo_heap 0 count0 2 3 Hm eq_refl).
Defined.

Lemma sum_polls_what_was_added_witness :
  let amounts := [FloatValue 0.25%float; IntValue 1] in
  (metrics demo_heap !! 1%nat = Some sum1 /\ attrs sum1 = OfSum 3.5%float 2 true)
  /\ (add_all 1 amounts;; first ← poll 1; second ← poll 1;
      mret (first, second)) demo_heap
     = Ok (FloatValue
             (let total := foldl plus 3.5%float amounts in
              let count := (2 + Z.of_nat (length amounts))%Z in
              if true then
                if decide (count = 0%Z) then float_zero
                else float_div total (float_of_int count)
              else total),
           FloatValue float_zero)
         (with_metric demo_heap 1 (with_attrs sum1 (OfSum float_zero 0 true))).
Proof.
  cbv zeta.
  assert (metrics demo_heap !! 1%nat = Some sum1) as Hm
    by (vm_compute; reflexivity).
  split; [by split |].
  exact (sum_polls_what_was_added demo_heap 1 sum1 3.5%float 2 true
           [FloatValue 0.25%float; IntValue 1] Hm eq_refl).
Defined.

Lemma timer_started_twice_raises_witness :
  (metrics demo_heap !! 2%nat = Some timer2
   /\ attrs timer2 = OfTimer PrimFloat.zero 0 false None)
  /\ (start 2;; start 2) demo_heap
     = Err (TimerAlreadyStartedError
              ("Attempt to start timer " +:+ str_of_name (name timer2)
                 +:+ " that was already started"))
         (with_metric (tick demo_heap) 2
            (with_attrs timer2
               (OfTimer PrimFloat.zero 0 false
                  (Some (time_time (time_calls demo_heap)))))).
Proof.
  assert (metrics demo_heap !! 2%nat = Some timer2) as Hm
    by (vm_compute; reflexivity).
  split; [by split |].
  exact (timer_started_twice_raises demo_heap 2 timer2 PrimFloat.zero 0 false
           Hm eq_refl).
Defined.

Lemma timer_stopped_unstarted_raises_witness :
  (metrics demo_heap !! 2%nat = Some timer2
   /\ attrs timer2 = OfTimer PrimFloat.zero 0 false None)
  /\ stop 2 demo_heap = Err TypeError (tick demo_heap).
Proof.
  assert (metrics demo_heap !! 2%nat = Some timer2) as Hm
    by (vm_compute; reflexivity).
  split; [by split |].
  exact (timer_stopped_unstarted_raises demo_heap 2 timer2 PrimFloat.zero 0
           false Hm eq_refl).
Defined.
Definition failing_block : Py unit :=
  inc 0;;
  py_raise (AttributeError "boom").

Lemma timer_times_its_block_witness :
  let entered :=
    with_metric (tick demo_heap) 2
      (with_attrs timer2
         (OfTimer PrimFloat.zero 0 false (Some (time_time (time_calls demo_heap))))) in
  let h2 := with_metric entered 0 (with_attrs count0 (OfCount (2 + 1))) in
  (metrics demo_heap !! 2%nat = Some timer2
   /\ attrs timer2 = OfTimer PrimFloat.zero 0 false None
   /\ failing_block entered = Err (AttributeError "boom") h2
   /\ metrics h2 !! 2%nat = metrics entered !! 2%nat)
  /\ with_ 2 failing_block demo_heap
     = Err (AttributeError "boom")
         (with_metric (tick h2) 2
            (with_attrs timer2
               (OfTimer
                  (float_add PrimFloat.zero
                     (float_sub (time_time (time_calls h2))
                        (time_time (time_calls demo_heap))))
                  (0 + 1) false None))).
Proof.
  cbv zeta.
  assert (metrics demo_heap !! 2%nat = Some timer2) as Hm
    by (vm_compute; reflexivity).
  pose proof (timer_times_its_block demo_heap 2 timer2 PrimFloat.zero 0 false
                failing_block Hm eq_refl) as Hw.
  cbv zeta in Hw.
  set (entered := with_metric (tick demo_heap) 2
                    (with_attrs timer2
                       (@OfTimer demo_runtime PrimFloat.zero 0 false
                          (Some (time_time (time_calls demo_heap)))))) in *.
  assert (failing_block entered
          = Err (AttributeError "boom")
              (with_metric entered 0
                 (with_attrs count0 (@OfCount demo_runtime (2 + 1)))))
    as Hblock by (vm_compute; reflexivity).
  assert (metrics (with_metric entered 0
                     (with_attrs count0 (@OfCount demo_runtime (2 + 1))))
            !! 2%nat = metrics entered !! 2%nat)
    as Hkept by (vm_compute; reflexivity).
  rewrite Hblock in Hw. cbv beta in Hw.
  exact (conj (conj Hm (conj eq_refl (conj Hblock Hkept))) (Hw Hkept)).
Defined.

Lemma publish_reports_every_metric_witness :
  let ms := [count0; sum1; timer2] in
  let rs :=
    [(IntValue 2, with_attrs count0 (OfCount 0));
     (FloatValue (_func true 3.5%float 2), with_attrs sum1 (OfSum float_zero 0 true));
     (FloatValue (_func false PrimFloat.zero 0),
      with_attrs timer2 (OfTimer float_zero 0 false None))] in
  (one_manager_each demo_heap
   /\ managers demo_heap !! 0%nat = Some manager0
   /\ Forall2 (fun metric m => metrics demo_heap !! metric = Some m)
        (_metrics manager0) ms
   /\ Forall2 (fun m r => polled m = Some r) ms rs)
  /\ _publish_metrics 0 demo_heap
     = Ok tt
         {| metrics := metrics (reset_all demo_heap (zip (_metrics manager0) rs.*2));
            managers := managers demo_heap;
            time_calls := S (time_calls demo_heap);
            published :=
              published demo_heap
              ++ [foldl MetricMessage_append MetricMessage_new
                    (zip_with
                       (fun m r =>
                          (Some (prefix manager0 +:+ _suffix m),
                           time_time (time_calls demo_heap), r.1))
                       ms rs)] |}.
Proof.
  cbv zeta.
  assert (managers demo_heap !! 0%nat = Some manager0) as Hg
    by (vm_compute; reflexivity).
  assert (Forall2 (fun metric m => metrics demo_heap !! metric = Some m)
            (_metrics manager0) [count0; sum1; timer2]) as Hms
    by (repeat (apply List.Forall2_cons; [vm_compute; reflexivity |]);
        apply List.Forall2_nil).
  assert (Forall2 (fun m r => polled m = Some r) [count0; sum1; timer2]
            [(IntValue 2, with_attrs count0 (OfCount 0));
             (FloatValue (_func true 3.5%float 2),
              with_attrs sum1 (OfSum float_zero 0 true));
             (FloatValue (_func false PrimFloat.zero 0),
              with_attrs timer2 (OfTimer float_zero 0 false None))]) as Hrs
    by (repeat (apply List.Forall2_cons; [reflexivity |]);
        apply List.Forall2_nil).
  exact (conj (conj demo_heap_one_manager_each (conj Hg (conj Hms Hrs)))
           (publish_reports_every_metric demo_heap 0 manager0 _ _
              demo_heap_one_manager_each Hg Hms Hrs)).
Defined.

Lemma publish_fails_after_polling_witness :
  let rs := [(IntValue 1, with_attrs count4 (OfCount 0))] in
  (managers demo_heap !! 1%nat = Some manager1
   /\ _metrics manager1 = [4%nat] ++ 3%nat :: []
   /\ NoDup ([4%nat] ++ [3%nat])
   /\ Forall2 (fun metric m => metrics demo_heap !! metric = Some m) [4%nat] [count4]
   /\ Forall2 (fun m r => polled m = Some r) [count4] rs
   /\ metrics demo_heap !! 3%nat = Some base3
   /\ attrs base3 = OfMetric)
  /\ _publish_metrics 1 demo_heap
     = Err (NotImplementedError "Metric subclasses should implement .poll()")
         {| metrics := metrics (reset_all demo_heap (zip [4%nat] rs.*2));
            managers := managers demo_heap;
            time_calls := S (time_calls demo_heap);
            published := published demo_heap |}.
Proof.
  cbv zeta.
  assert (managers demo_heap !! 1%nat = Some manager1) as Hg
    by (vm_compute; reflexivity).
  assert (NoDup ([4%nat] ++ [3%nat])) as Hnodup
    by (apply NoDup_ListNoDup; repeat constructor; cbn; intuition lia).
  assert (Forall2 (fun metric m => metrics demo_heap !! metric = Some m)
            [4%nat] [count4]) as Hms
    by (repeat (apply List.Forall2_cons; [vm_compute; reflexivity |]);
        apply List.Forall2_nil).
  assert (Forall2 (fun m r => polled m = Some r) [count4]
            [(IntValue 1, with_attrs count4 (OfCount 0))]) as Hrs
    by (repeat (apply List.Forall2_cons; [reflexivity |]);
        apply List.Forall2_nil).
  assert (metrics demo_heap !! 3%nat = Some base3) as Hm
    by (vm_compute; reflexivity).
  exact (conj (conj Hg (conj eq_refl (conj Hnodup (conj Hms (conj Hrs
                 (conj Hm eq_refl))))))
           (publish_fails_after_polling demo_heap 1 3 manager1 [4%nat] [] base3
              _ _ Hg eq_refl Hnodup Hms Hrs Hm eq_refl)).
Defined.

End MetricsRun.

(** With a codec that raises on every frame, [sendPDU] writes nothing:
    the link-check is not acknowledged and the exception escapes. *)
Example enquire_link_unlogged_example :
  dispatch (fun _ => inl (CodecError "undecodable")) Demo.get_bin
    Demo.uuid4_str Demo.now_strftime (Demo.enquire_pdu 3) Demo.world0
    SmscServer_init
  = Raises (CodecError "undecodable") Demo.world0 SmscServer_init.
Proof. reflexivity. Qed.
